(** * Socket.IO blueprint gateway (server.js): model and verification

    The gateway relays drawing events between the clients of a blueprint
    "room" and a Spring Boot persistence service.  This development embeds

    - the values that travel through the handlers (deserialised JSON),
    - [roomName], [persistPoint] and [fetchBlueprint],
    - the four socket handlers ([join-room], [draw-event], [leave-room],
      [disconnect]) as programs with exceptions, socket actions and
      suspension points at the two HTTP calls,
    - the room registry of the transport, and the event loop that starts
      handlers and resumes them when an HTTP call settles,

    and proves the properties of the specification about them.

    Conventions.  Strings are byte strings (the UTF-8 form of the text).
    [console.*] calls are not modelled: they have no effect a client or the
    persistence service can observe, and none of them can throw. *)

From Stdlib Require Import Ascii String.
From stdpp Require Import base option list strings pretty gmap fin_maps fin_sets.

Local Open Scope string_scope.
Local Open Scope list_scope.
Local Set Warnings "-register-all,-clear-no-such-hyp".

(** ** JavaScript values *)

(** IEEE doubles are kept abstract: the gateway only ever asks whether a
    number is truthy and how it prints inside a template literal. *)
Class JsNumber (number : Type) : Type := {
  number_truthy : number → bool;      (* false exactly on 0, -0 and NaN *)
  number_to_string : number → string  (* Number::toString, radix 10 *)
}.

(** Integer-valued numbers in the safe range print in plain decimal. *)
#[export] Instance Z_JsNumber : JsNumber Z := {|
  number_truthy z := negb (Z.eqb z 0);
  number_to_string z := pretty z
|}.

(** ** Room registry *)

(** A connection is known by its [socket.id]. *)
Abbreviation SocketId := string (only parsing).

Module Registry.

(** Modelled from the spec: the room registry is the adapter of the
    transport (socket.io), which is not part of the repository.  Section 3
    and section 4.1: a room "holds a set of member connection identifiers
    (set semantics)", is "created lazily on first join", and the registry
    is to "track reverse membership per connection". *)
Record t : Type := mk {
  rooms : gmap string (gset string);   (* room key -> member connections *)
  sids : gmap string (gset string)     (* connection -> rooms it is in *)
}.

Definition empty : t := mk ∅ ∅.

Definition members (R : t) (room : string) : gset string :=
  default ∅ (rooms R !! room).

Definition rooms_of (R : t) (c : SocketId) : gset string :=
  default ∅ (sids R !! c).

(** Modelled from the spec: "[join(roomKey, connection)]: idempotent — adds
    connection to the room's member set if absent; no error if already
    present." *)
Definition join (room : string) (c : SocketId) (R : t) : t :=
  mk (<[room := {[c]} ∪ members R room]> (rooms R))
     (<[c := {[room]} ∪ rooms_of R c]> (sids R)).

(** Modelled from the spec: "[leave(roomKey, connection)]: idempotent —
    removes connection if present; no error if absent or room doesn't
    exist." *)
Definition leave (room : string) (c : SocketId) (R : t) : t :=
  mk (alter (λ s, s ∖ {[c]}) room (rooms R))
     (alter (λ s, s ∖ {[room]}) c (sids R)).

(** Modelled from the spec: "[removeConnectionEverywhere(connection)]:
    called on disconnect; removes the connection from every room it belongs
    to", visiting the rooms the reverse index lists for it. *)
Definition removeConnectionEverywhere (c : SocketId) (R : t) : t :=
  mk (foldr (λ room m, alter (λ s, s ∖ {[c]}) room m) (rooms R)
        (elements (rooms_of R c)))
     (delete c (sids R)).

(** Modelled from the spec: "[broadcast(roomKey, eventName, payload)]:
    delivers [payload] to every current member of the room, including a
    member that itself triggered the originating action."  These are the
    connections it is delivered to. *)
Definition broadcast (room : string) (R : t) : gset string := members R room.

(** The two indexes agree. *)
Definition consistent (R : t) : Prop :=
  ∀ c room, c ∈ members R room ↔ room ∈ rooms_of R c.

End Registry.

Section Gateway.
Context {number : Type} `{!JsNumber number}.

(** What [JSON.parse] (socket.io-parser, axios) can produce, plus
    [undefined] for an argument or a property that is not there.  An object
    is the table of its own properties. *)
Inductive JsVal : Type :=
  | JUndefined
  | JNull
  | JBool (b : bool)
  | JNum (n : number)
  | JStr (s : string)
  | JArr (items : list JsVal)
  | JObj (props : list (string * JsVal)).

(** ToBoolean. *)
Definition truthy (v : JsVal) : bool :=
  match v with
  | JUndefined | JNull => false
  | JBool b => b
  | JNum n => number_truthy n
  | JStr s => negb (String.eqb s "")
  | JArr _ | JObj _ => true
  end.

Fixpoint own_property (props : list (string * JsVal)) (key : string) : option JsVal :=
  match props with
  | [] => None
  | (k, v) :: rest => if String.eqb k key then Some v else own_property rest key
  end.

(** [v.key] for a [v] that is neither [undefined] nor [null], and a [key]
    that no built-in prototype defines (the gateway reads [author], [name],
    [point], [data] and [message]). *)
Definition field (v : JsVal) (key : string) : JsVal :=
  match v with
  | JObj props => default JUndefined (own_property props key)
  | _ => JUndefined
  end.

(** [v?.key]. *)
Definition opt_field (v : JsVal) (key : string) : JsVal :=
  match v with
  | JUndefined | JNull => JUndefined
  | _ => field v key
  end.

Fixpoint join_comma (parts : list string) : string :=
  match parts with
  | [] => ""
  | [p] => p
  | p :: rest => p +:+ "," +:+ join_comma rest
  end.

(** ToString, as a template literal applies it.  [None] stands for the
    [TypeError] thrown on an object whose own [toString] property hides
    [Object.prototype.toString] (a parsed property is never callable). *)
Fixpoint to_string (v : JsVal) : option string :=
  match v with
  | JUndefined => Some "undefined"
  | JNull => Some "null"
  | JBool true => Some "true"
  | JBool false => Some "false"
  | JNum n => Some (number_to_string n)
  | JStr s => Some s
  | JArr items =>
      join_comma <$>
        (fix each (l : list JsVal) : option (list string) :=
           match l with
           | [] => Some []
           | x :: rest =>
               s ← match x with
                   | JUndefined | JNull => Some ""
                   | _ => to_string x
                   end;
               ss ← each rest;
               Some (s :: ss)
           end) items
  | JObj props =>
      match own_property props "toString" with
      | Some _ => None
      | None => Some "[object Object]"
      end
  end.

(** ** Room names *)

(** [function roomName(author, name) { return `room:${author}-${name}` }] *)
Definition roomName (author name : JsVal) : option string :=
  a ← to_string author;
  n ← to_string name;
  Some ("room:" +:+ a +:+ "-" +:+ n).

Fixpoint has_hyphen (s : string) : bool :=
  match s with
  | EmptyString => false
  | String c rest => Ascii.eqb c "-"%char || has_hyphen rest
  end.

(** ** URLs *)

Definition hex_digit (n : N) : ascii :=
  match n with
  | 0 => "0" | 1 => "1" | 2 => "2" | 3 => "3" | 4 => "4" | 5 => "5" | 6 => "6" | 7 => "7"
  | 8 => "8" | 9 => "9" | 10 => "A" | 11 => "B" | 12 => "C" | 13 => "D" | 14 => "E" | _ => "F"
  end%N%char.

(** The characters [encodeURIComponent] leaves alone:
    [A-Z a-z 0-9 - _ . ! ~ * ' ( )]. *)
Definition uri_unreserved (c : ascii) : bool :=
  let n := N_of_ascii c in
  ((65 <=? n) && (n <=? 90) || (97 <=? n) && (n <=? 122) || (48 <=? n) && (n <=? 57)
   || bool_decide (c ∈ ["-"; "_"; "."; "!"; "~"; "*"; "'"; "("; ")"]%char))%N.

(** Every other byte of the UTF-8 form becomes [%XX]. *)
Fixpoint percent_encode (s : string) : string :=
  match s with
  | EmptyString => EmptyString
  | String c rest =>
      if uri_unreserved c then String c (percent_encode rest)
      else let n := N_of_ascii c in
           String "%" (String (hex_digit (n / 16)) (String (hex_digit (n mod 16))
             (percent_encode rest)))
  end.

(** [encodeURIComponent(v)]: ToString, then escaping. *)
Definition encodeURIComponent (v : JsVal) : option string :=
  percent_encode <$> to_string v.

(** ** HTTP exchanges with the Spring Boot service *)

(** The axios response; only its [data] (the parsed body) is read. *)
Record Response : Type := mkResponse { data : JsVal }.

(** A thrown value: an [Error] with its [message], and for an axios error
    that carries an HTTP reply, its [response]. *)
Record JsError : Type := mkError {
  message : string;
  response : option Response
}.

Definition TypeError (msg : string) : JsError := mkError msg None.

Inductive Request : Type :=
  | Put (url : string) (body : JsVal)   (* spring.put(url, body) *)
  | Get (url : string).                 (* spring.get(url) *)

(** How the promise of a request settles. *)
Inductive Outcome : Type :=
  | Resolved (res : Response)
  | Rejected (err : JsError).

(** ** Handler programs *)

(** The second argument of a [draw-event]: what [typeof ack] reports. *)
Variant AckArg : Type := AckFunction | NotAFunction.

Inductive Action : Type :=
  | SocketEmit (event : string) (arg : JsVal)             (* socket.emit(event, arg) *)
  | AckCall (arg : JsVal)                                 (* ack(arg) *)
  | SocketJoin (room : string)                            (* socket.join(room) *)
  | SocketLeave (room : string)                           (* socket.leave(room) *)
  | IoToEmit (room : string) (event : string) (arg : JsVal). (* io.to(room).emit(event, arg) *)

(** A handler body: it returns, throws, performs an action, or awaits a
    request and goes on with the way it settled. *)
Inductive Prog (A : Type) : Type :=
  | Ret (a : A)
  | Throw (err : JsError)
  | Act (act : Action) (next : Prog A)
  | Await (req : Request) (resume : Outcome → Prog A).
Global Arguments Ret {A} a.
Global Arguments Throw {A} err.
Global Arguments Act {A} act next.
Global Arguments Await {A} req resume.

Fixpoint bind {A B : Type} (p : Prog A) (f : A → Prog B) : Prog B :=
  match p with
  | Ret a => f a
  | Throw err => Throw err
  | Act act next => Act act (bind next f)
  | Await req resume => Await req (λ o, bind (resume o) f)
  end.

#[export] Instance Prog_ret : MRet Prog := @Ret.
#[export] Instance Prog_bind : MBind Prog := λ A B f p, bind p f.

(** [try { p } catch (err) { h err }], when nothing follows the statement
    or [p] and [h] produce what follows. *)
Fixpoint try_catch {A : Type} (p : Prog A) (h : JsError → Prog A) : Prog A :=
  match p with
  | Ret a => Ret a
  | Throw err => h err
  | Act act next => Act act (try_catch next h)
  | Await req resume => Await req (λ o, try_catch (resume o) h)
  end.

(** The outcome of a [try] block, for a [catch] that ends in [return]. *)
Definition attempt {A : Type} (p : Prog A) : Prog (JsError + A) :=
  try_catch (a ← p; Ret (inr a)) (λ err, Ret (inl err)).

(** [await spring.put(..)] / [await spring.get(..)]. *)
Definition await (req : Request) : Prog Response :=
  Await req (λ o, match o with Resolved res => Ret res | Rejected err => Throw err end).

Definition perform (act : Action) : Prog unit := Act act (Ret tt).

(** A template literal hole or [encodeURIComponent] that throws. *)
Definition or_throw {A : Type} (o : option A) : Prog A :=
  match o with
  | Some a => Ret a
  | None => Throw (TypeError "Cannot convert object to primitive value")
  end.

(** [v.key], which throws on [undefined] and [null]. *)
Definition prop (v : JsVal) (key : string) : Prog JsVal :=
  match v with
  | JUndefined | JNull =>
      Throw (TypeError ("Cannot read properties of " +:+ default "" (to_string v)
                        +:+ " (reading '" +:+ key +:+ "')"))
  | _ => Ret (field v key)
  end.

(** [{ message: msg }], [{ ok: false, message: msg }] and [{ ok: true }]. *)
Definition message_obj (msg : string) : JsVal := JObj [("message", JStr msg)].
Definition ack_failure (msg : string) : JsVal :=
  JObj [("ok", JBool false); ("message", JStr msg)].
Definition ack_success : JsVal := JObj [("ok", JBool true)].

(** [if (typeof ack === 'function') ack(arg)] *)
Definition call_ack (ack : AckArg) (arg : JsVal) : Prog unit :=
  match ack with
  | AckFunction => perform (AckCall arg)
  | NotAFunction => Ret tt
  end.

(** [async function persistPoint(author, name, point)]: the URL is built
    inside the async function, so a throw there rejects its promise. *)
Definition persistPoint (author name point : JsVal) : Prog Response :=
  a ← or_throw (encodeURIComponent author);
  n ← or_throw (encodeURIComponent name);
  let url := "/api/v1/blueprints/" +:+ a +:+ "/" +:+ n +:+ "/points" in
  await (Put url point).

(** [async function fetchBlueprint(author, name)]: the Spring API answers
    [{ status, message, data, timestamp }], and the function returns
    [res.data && res.data.data ? res.data.data : null]. *)
Definition fetchBlueprint (author name : JsVal) : Prog JsVal :=
  a ← or_throw (encodeURIComponent author);
  n ← or_throw (encodeURIComponent name);
  let url := "/api/v1/blueprints/" +:+ a +:+ "/" +:+ n in
  res ← await (Get url);
  if truthy (data res) && truthy (field (data res) "data")
  then Ret (field (data res) "data")
  else Ret JNull.

(** ** The socket handlers *)

(** [!v.k1 || !v.k2 || ...] *)
Fixpoint any_falsy (v : JsVal) (keys : list string) : Prog bool :=
  match keys with
  | [] => Ret false
  | key :: rest => x ← prop v key; if truthy x then any_falsy v rest else Ret true
  end.

(** [!payload || !payload.k1 || ...] *)
Definition missing (payload : JsVal) (keys : list string) : Prog bool :=
  if truthy payload then any_falsy payload keys else Ret true.

(** [socket.on('join-room', async (payload) => ...)] *)
Definition join_room (payload : JsVal) : Prog unit :=
  try_catch
    (invalid ← missing payload ["author"; "name"];
     if invalid : bool then
       perform (SocketEmit "error" (message_obj "join-room: missing author or name"))
     else
       author ← prop payload "author";
       name ← prop payload "name";
       room ← or_throw (roomName author name);
       perform (SocketJoin room);;
       try_catch
         (bp ← fetchBlueprint author name;
          if truthy bp then perform (SocketEmit "blueprint-update" bp) else Ret tt)
         (λ err,
            perform (SocketEmit "warning"
                       (message_obj "Could not fetch blueprint state from API"))))
    (λ err, perform (SocketEmit "error" (message_obj "Internal error on join-room"))).

(** [err?.response?.data?.message || err.message] *)
Definition persist_failure_reason (err : JsError) : JsVal :=
  let remote :=
    match response err with
    | None => JUndefined
    | Some res => opt_field (data res) "message"
    end in
  if truthy remote then remote else JStr (message err).

(** [socket.on('draw-event', async (payload, ack) => ...)] *)
Definition draw_event (payload : JsVal) (ack : AckArg) : Prog unit :=
  try_catch
    (invalid ← missing payload ["author"; "name"; "point"];
     if invalid : bool then
       let msg := "draw-event: missing author, name or point" in
       call_ack ack (ack_failure msg);;
       perform (SocketEmit "error" (message_obj msg))
     else
       author ← prop payload "author";
       name ← prop payload "name";
       point ← prop payload "point";
       room ← or_throw (roomName author name);
       persisted ← attempt (persistPoint author name point);
       match persisted with
       | inl err =>
           reason ← or_throw (to_string (persist_failure_reason err));
           let msg := "Failed to persist point: " +:+ reason in
           call_ack ack (ack_failure msg);;
           perform (SocketEmit "error" (message_obj msg))
       | inr _ =>
           fetched ← attempt (fetchBlueprint author name);
           match fetched with
           | inl err =>
               let msg := "Failed to fetch updated blueprint: " +:+ message err in
               call_ack ack (ack_failure msg);;
               perform (SocketEmit "warning" (message_obj msg))
           | inr updatedBlueprint =>
               if negb (truthy updatedBlueprint) then
                 let msg := "Blueprint not found after persisting point" in
                 call_ack ack (ack_failure msg);;
                 perform (SocketEmit "warning" (message_obj msg))
               else
                 perform (IoToEmit room "blueprint-update" updatedBlueprint);;
                 call_ack ack ack_success
           end
       end)
    (λ err,
       call_ack ack (ack_failure "Internal server error");;
       perform (SocketEmit "error"
                  (message_obj "Internal server error handling draw-event"))).

(** [socket.on('leave-room', (payload) => ...)] *)
Definition leave_room (payload : JsVal) : Prog unit :=
  try_catch
    (invalid ← missing payload ["author"; "name"];
     if invalid : bool then Ret tt
     else
       author ← prop payload "author";
       name ← prop payload "name";
       room ← or_throw (roomName author name);
       perform (SocketLeave room))
    (λ err, Ret tt).

(** [socket.on('disconnect', (reason) => ...)]: it only logs. *)
Definition disconnect : Prog unit := Ret tt.

(** ** The event loop *)

(** What leaves the gateway. *)
Inductive Event : Type :=
  | Sent (to : SocketId) (event : string) (arg : JsVal)
  | Acked (to : SocketId) (arg : JsVal)
  | Broadcast (room : string) (event : string) (arg : JsVal) (to : gset string)
  | Requested (task : nat) (req : Request)
  | Unhandled (socket : SocketId) (err : JsError).

(** A handler suspended at an [await]. *)
Record Task : Type := mkTask {
  task_socket : SocketId;
  task_request : Request;
  task_resume : Outcome → Prog unit
}.

Record Gateway : Type := mkGateway {
  registry : Registry.t;
  pending : gmap nat Task;
  next_task : nat
}.

Definition initial : Gateway := mkGateway Registry.empty ∅ 0.

(** One action of the handler running for connection [c]. *)
Definition do_action (c : SocketId) (R : Registry.t) (act : Action)
  : Registry.t * list Event :=
  match act with
  | SocketEmit event arg => (R, [Sent c event arg])
  | AckCall arg => (R, [Acked c arg])
  | SocketJoin room => (Registry.join room c R, [])
  | SocketLeave room => (Registry.leave room c R, [])
  | IoToEmit room event arg => (R, [Broadcast room event arg (Registry.broadcast room R)])
  end.

(** Run a handler up to its next [await] (or to its end). *)
Fixpoint advance (c : SocketId) (R : Registry.t) (p : Prog unit)
  : Registry.t * list Event * option (Request * (Outcome → Prog unit)) :=
  match p with
  | Ret _ => (R, [], None)
  | Throw err => (R, [Unhandled c err], None)
  | Act act next =>
      let '(R1, out1) := do_action c R act in
      let '(R2, out2, rest) := advance c R1 next in
      (R2, out1 ++ out2, rest)
  | Await req resume => (R, [], Some (req, resume))
  end.

(** Run [p] for [c] as task [id]; if it suspends, park it and send the
    request. *)
Definition schedule (id : nat) (c : SocketId) (p : Prog unit) (g : Gateway)
  : Gateway * list Event :=
  let '(R, out, rest) := advance c (registry g) p in
  match rest with
  | None => (mkGateway R (delete id (pending g)) (next_task g), out)
  | Some (req, resume) =>
      (mkGateway R (<[id := mkTask c req resume]> (pending g)) (next_task g),
       out ++ [Requested id req])
  end.

Definition start (c : SocketId) (p : Prog unit) (g : Gateway) : Gateway * list Event :=
  schedule (next_task g) c p
    (mkGateway (registry g) (pending g) (S (next_task g))).

(** Modelled from the spec: what the transport itself does when a
    connection closes, before the ['disconnect'] handler runs: the
    connection is "destroyed (removed from all rooms) on disconnect", by
    the registry's [removeConnectionEverywhere]. *)
Definition close_connection (c : SocketId) (g : Gateway) : Gateway :=
  mkGateway (Registry.removeConnectionEverywhere c (registry g))
    (pending g) (next_task g).

Inductive Input : Type :=
  | OnJoinRoom (c : SocketId) (payload : JsVal)
  | OnDrawEvent (c : SocketId) (payload : JsVal) (ack : AckArg)
  | OnLeaveRoom (c : SocketId) (payload : JsVal)
  | OnDisconnect (c : SocketId)
  | Settled (task : nat) (o : Outcome).

(** One turn of the loop: a client event starts its handler, a settled
    request resumes the handler that awaits it.  On a disconnect the
    transport first closes the connection, then fires the handler. *)
Definition step (g : Gateway) (i : Input) : Gateway * list Event :=
  match i with
  | OnJoinRoom c payload => start c (join_room payload) g
  | OnDrawEvent c payload ack => start c (draw_event payload ack) g
  | OnLeaveRoom c payload => start c (leave_room payload) g
  | OnDisconnect c => start c disconnect (close_connection c g)
  | Settled id o =>
      match pending g !! id with
      | None => (g, [])
      | Some task => schedule id (task_socket task) (task_resume task o) g
      end
  end.

Fixpoint run (g : Gateway) (inputs : list Input) : Gateway * list Event :=
  match inputs with
  | [] => (g, [])
  | i :: rest =>
      let '(g1, out1) := step g i in
      let '(g2, out2) := run g1 rest in
      (g2, out1 ++ out2)
  end.

(** ** Running a handler body against given outcomes *)

Inductive Completion (A : Type) : Type :=
  | Returned (a : A)
  | Thrown (err : JsError)
  | Suspended.
Global Arguments Returned {A} a.
Global Arguments Thrown {A} err.
Global Arguments Suspended {A}.

(** The actions and requests of [p], in order, when its awaits settle as
    [outcomes] say, and how it ends. *)
Fixpoint execute {A : Type} (p : Prog A) (outcomes : list Outcome)
  : list (Action + Request) * Completion A :=
  match p with
  | Ret a => ([], Returned a)
  | Throw err => ([], Thrown err)
  | Act act next =>
      let '(trace, c) := execute next outcomes in (inl act :: trace, c)
  | Await req resume =>
      match outcomes with
      | [] => ([inr req], Suspended)
      | o :: rest =>
          let '(trace, c) := execute (resume o) rest in (inr req :: trace, c)
      end
  end.

(** ** Vocabulary of the statements *)

(** The events of [if (typeof ack === 'function') ack(arg)]. *)
Definition acks (c : SocketId) (ack : AckArg) (arg : JsVal) : list Event :=
  match ack with
  | AckFunction => [Acked c arg]
  | NotAFunction => []
  end.

(** Task [t] of [g] is the handler of [c], waiting for [req]. *)
Definition parked (g : Gateway) (t : nat) (c : SocketId) (req : Request)
    (resume : Outcome → Prog unit) : Prop :=
  pending g !! t = Some (mkTask c req resume).

(** The gateway once task [t] has finished. *)
Definition finished (t : nat) (g : Gateway) : Gateway :=
  mkGateway (registry g) (delete t (pending g)) (next_task g).

(** The gateway once task [t] waits for [req]. *)
Definition waiting (t : nat) (c : SocketId) (req : Request)
    (resume : Outcome → Prog unit) (g : Gateway) : Gateway :=
  mkGateway (registry g) (<[t := mkTask c req resume]> (pending g)) (next_task g).

(** The gateway after task number [next_task g] has been handed out. *)
Definition accepted (g : Gateway) : Gateway :=
  mkGateway (registry g) (pending g) (S (next_task g)).

(** The payload names the blueprint [(a, n)]: both fields are present and
    print as [a] and [n] (a string prints as itself). *)
Definition names_blueprint (payload : JsVal) (a n : string) : Prop :=
  truthy (field payload "author") = true ∧
  truthy (field payload "name") = true ∧
  to_string (field payload "author") = Some a ∧
  to_string (field payload "name") = Some n.

Definition points_url (a n : string) : string :=
  "/api/v1/blueprints/" +:+ percent_encode a +:+ "/" +:+ percent_encode n +:+ "/points".

Definition blueprint_url (a n : string) : string :=
  "/api/v1/blueprints/" +:+ percent_encode a +:+ "/" +:+ percent_encode n.

Definition room_key (a n : string) : string := "room:" +:+ a +:+ "-" +:+ n.

(** None of [inputs] settles task [t]. *)
Definition others (t : nat) (inputs : list Input) : Prop :=
  Forall (λ i, ∀ o, i ≠ Settled t o) inputs.

(** [p] never changes room membership. *)
Fixpoint quiet {A : Type} (p : Prog A) : Prop :=
  match p with
  | Ret _ | Throw _ => True
  | Act (SocketJoin _) _ | Act (SocketLeave _) _ => False
  | Act _ next => quiet next
  | Await _ resume => ∀ o, quiet (resume o)
  end.

(** The registry indexes agree and no suspended handler will touch it. *)
Definition sound (g : Gateway) : Prop :=
  Registry.consistent (registry g) ∧
  ∀ t task, pending g !! t = Some task → ∀ o, quiet (task_resume task o).

(** The room a [join-room] or [leave-room] payload asks for, if it passes
    validation and the name can be built. *)
Definition requested_room (payload : JsVal) : option string :=
  if truthy payload && truthy (field payload "author") && truthy (field payload "name")
  then roomName (field payload "author") (field payload "name")
  else None.

(** What one turn of the loop does to the registry. *)
Definition registry_after (i : Input) (R : Registry.t) : Registry.t :=
  match i with
  | OnJoinRoom c payload =>
      match requested_room payload with
      | Some room => Registry.join room c R
      | None => R
      end
  | OnLeaveRoom c payload =>
      match requested_room payload with
      | Some room => Registry.leave room c R
      | None => R
      end
  | OnDisconnect c => Registry.removeConnectionEverywhere c R
  | OnDrawEvent _ _ _ | Settled _ _ => R
  end.

(** Membership as the requests so far determine it: [c] is subscribed to
    [room] when it has joined it and has not left it or disconnected
    since. *)
Definition subscription (c : SocketId) (room : string) (before : bool) (i : Input) : bool :=
  match i with
  | OnJoinRoom c' payload =>
      if bool_decide (c' = c ∧ requested_room payload = Some room) then true else before
  | OnLeaveRoom c' payload =>
      if bool_decide (c' = c ∧ requested_room payload = Some room) then false else before
  | OnDisconnect c' => if bool_decide (c' = c) then false else before
  | OnDrawEvent _ _ _ | Settled _ _ => before
  end.

Definition subscribed (inputs : list Input) (c : SocketId) (room : string) : bool :=
  foldl (subscription c room) false inputs.

(** [e] is a broadcast delivered to [c]. *)
Definition reaches (c : SocketId) (e : Event) : Prop :=
  match e with
  | Broadcast _ _ _ to => c ∈ to
  | _ => False
  end.

(** [i] is a [leave-room] request or the disconnect of [c]. *)
Definition departs (c : SocketId) (i : Input) : Prop :=
  match i with
  | OnLeaveRoom c' _ | OnDisconnect c' => c' = c
  | _ => False
  end.

(** [i] is a [join-room] request of [c]. *)
Definition joins (c : SocketId) (i : Input) : Prop :=
  match i with
  | OnJoinRoom c' _ => c' = c
  | _ => False
  end.

(** [p] handles every exception it raises: no path of it ends in a throw. *)
Fixpoint catches_all {A : Type} (p : Prog A) : Prop :=
  match p with
  | Ret _ => True
  | Throw _ => False
  | Act _ next => catches_all next
  | Await _ resume => ∀ o, catches_all (resume o)
  end.

(** No suspended handler can end in an unhandled rejection. *)
Definition guarded (g : Gateway) : Prop :=
  ∀ t task, pending g !! t = Some task → ∀ o, catches_all (task_resume task o).

Definition is_ack (e : Event) : bool :=
  match e with Acked _ _ => true | _ => false end.

Definition is_request (e : Event) : bool :=
  match e with Requested _ _ => true | _ => false end.

Definition is_unhandled (e : Event) : bool :=
  match e with Unhandled _ _ => true | _ => false end.

(** [e] concerns [c] alone: a packet or an acknowledgment sent to [c], or a
    request to the persistence service. *)
Definition private_to (c : SocketId) (e : Event) : Prop :=
  match e with
  | Sent c' _ _ | Acked c' _ => c' = c
  | Requested _ _ => True
  | Broadcast _ _ _ _ | Unhandled _ _ => False
  end.

(** The validations [!payload || !payload.author || !payload.name] and
    [... || !payload.point] pass. *)
Definition join_fields_present (payload : JsVal) : bool :=
  truthy payload && truthy (field payload "author") && truthy (field payload "name").

Definition draw_fields_present (payload : JsVal) : bool :=
  truthy payload && truthy (field payload "author") && truthy (field payload "name")
  && truthy (field payload "point").

(** The character [ch] occurs in [s]. *)
Fixpoint occurs (ch : ascii) (s : string) : bool :=
  match s with
  | EmptyString => false
  | String c rest => Ascii.eqb c ch || occurs ch rest
  end.

(** The number whose [hex_digit] is [c], if there is one. *)
Definition hex_value (c : ascii) : option N :=
  List.find (λ n, Ascii.eqb (hex_digit n) c) (N.of_nat <$> seq 0 16).

(** The inverse of [percent_encode], used to show that the escaping loses
    nothing. *)
Fixpoint percent_decode (s : string) : option string :=
  match s with
  | EmptyString => Some EmptyString
  | String "%" (String h (String l rest)) =>
      hi ← hex_value h;
      lo ← hex_value l;
      String (ascii_of_N (16 * hi + lo)) <$> percent_decode rest
  | String "%" _ => None
  | String c rest => String c <$> percent_decode rest
  end.

End Gateway.

(** ** Sample data: the scenario of the specification *)

Module Sample.

Definition value : Type := @JsVal Z.

Definition point : value := JObj [("x", JNum 10%Z); ("y", JNum 20%Z)].

(** [{ author: 'alice', name: 'plano1' }] *)
Definition join_payload : value :=
  JObj [("author", JStr "alice"); ("name", JStr "plano1")].

(** [{ author: 'alice', name: 'plano1', point: { x: 10, y: 20 } }] *)
Definition draw_payload : value :=
  JObj [("author", JStr "alice"); ("name", JStr "plano1"); ("point", point)].

Definition blueprint : value :=
  JObj [("author", JStr "alice"); ("name", JStr "plano1"); ("points", JArr [point])].

(** The reply of the Spring API with [d] as its [data]. *)
Definition envelope (d : value) : @Response Z :=
  mkResponse (JObj [("status", JNum 200%Z); ("message", JStr "ok"); ("data", d);
                    ("timestamp", JStr "2025-01-01T00:00:00Z")]).

(** The same reply without a [data] field. *)
Definition envelope_without_data : @Response Z :=
  mkResponse (JObj [("status", JNum 200%Z); ("message", JStr "ok");
                    ("timestamp", JStr "2025-01-01T00:00:00Z")]).

Definition timeout : @JsError Z := mkError "timeout of 5000ms exceeded" None.

(** Connections A and B have asked to join the room of alice's plano1;
    their initial GETs (tasks 0 and 1) are still under way. *)
Definition two_members : @Gateway Z :=
  (run initial [OnJoinRoom "A" join_payload; OnJoinRoom "B" join_payload]).1.

(** An object that cannot be printed: its own [toString] is not callable. *)
Definition unprintable : value := JObj [("toString", JNull)].

Definition unprintable_payload : value :=
  JObj [("author", unprintable); ("name", JStr "plano1"); ("point", point)].

(** Two different blueprints with the same room name. *)
Definition hyphen_join_payload : value :=
  JObj [("author", JStr "a"); ("name", JStr "b-c")].

Definition hyphen_draw_payload : value :=
  JObj [("author", JStr "a-b"); ("name", JStr "c"); ("point", point)].

End Sample.

Section Properties.
Context {number : Type} `{!JsNumber number}.

#[local] Abbreviation JsVal := (@JsVal number).
#[local] Abbreviation Response := (@Response number).
#[local] Abbreviation JsError := (@JsError number).
#[local] Abbreviation Request := (@Request number).
#[local] Abbreviation Outcome := (@Outcome number).
#[local] Abbreviation Action := (@Action number).
#[local] Abbreviation Prog := (@Prog number).
#[local] Abbreviation Event := (@Event number).
#[local] Abbreviation Task := (@Task number).
#[local] Abbreviation Gateway := (@Gateway number).
#[local] Abbreviation Input := (@Input number).

(** ** The registry *)

Lemma default_difference (c : string) (o : option (gset string)) :
  default ∅ ((λ s, s ∖ {[c]}) <$> o) = default ∅ o ∖ {[c]}.
Proof. destruct o; cbn; set_solver. Qed.

Lemma registry_members_join room c R room' :
  Registry.members (Registry.join room c R) room' =
  if decide (room = room') then {[c]} ∪ Registry.members R room
  else Registry.members R room'.
Proof.
  unfold Registry.members, Registry.join; cbn. rewrite lookup_insert.
  by case_decide; subst.
Qed.

Lemma registry_rooms_of_join room c R c' :
  Registry.rooms_of (Registry.join room c R) c' =
  if decide (c = c') then {[room]} ∪ Registry.rooms_of R c
  else Registry.rooms_of R c'.
Proof.
  unfold Registry.rooms_of, Registry.join; cbn. rewrite lookup_insert.
  by case_decide; subst.
Qed.

Lemma registry_members_leave room c R room' :
  Registry.members (Registry.leave room c R) room' =
  if decide (room = room') then Registry.members R room ∖ {[c]}
  else Registry.members R room'.
Proof.
  unfold Registry.members, Registry.leave; cbn. rewrite lookup_alter.
  case_decide; subst; [|done]. apply default_difference.
Qed.

Lemma registry_rooms_of_leave room c R c' :
  Registry.rooms_of (Registry.leave room c R) c' =
  if decide (c = c') then Registry.rooms_of R c ∖ {[room]}
  else Registry.rooms_of R c'.
Proof.
  unfold Registry.rooms_of, Registry.leave; cbn. rewrite lookup_alter.
  case_decide; subst; [|done]. apply default_difference.
Qed.

Lemma foldr_alter_lookup (c : string) (l : list string)
    (m : gmap string (gset string)) (room : string) :
  default ∅ (foldr (λ room m, alter (λ s, s ∖ {[c]}) room m) m l !! room) =
  if decide (room ∈ l) then default ∅ (m !! room) ∖ {[c]} else default ∅ (m !! room).
Proof.
  induction l as [|x l IH]; cbn [foldr].
  - by rewrite decide_False by set_solver.
  - rewrite lookup_alter. destruct (decide (x = room)) as [->|Hne].
    + rewrite decide_True by set_solver.
      rewrite default_difference, IH. case_decide; set_solver.
    + rewrite IH. repeat case_decide; set_solver.
Qed.

Lemma registry_members_remove c R room :
  Registry.members (Registry.removeConnectionEverywhere c R) room =
  if decide (room ∈ Registry.rooms_of R c) then Registry.members R room ∖ {[c]}
  else Registry.members R room.
Proof.
  unfold Registry.members, Registry.removeConnectionEverywhere; cbn.
  rewrite foldr_alter_lookup.
  case_decide as H1; case_decide as H2; try done; set_solver.
Qed.

Lemma registry_rooms_of_remove c R c' :
  Registry.rooms_of (Registry.removeConnectionEverywhere c R) c' =
  if decide (c = c') then ∅ else Registry.rooms_of R c'.
Proof.
  unfold Registry.rooms_of, Registry.removeConnectionEverywhere; cbn.
  rewrite lookup_delete. by case_decide.
Qed.

Lemma registry_consistent_empty : Registry.consistent Registry.empty.
Proof.
  intros c room. unfold Registry.members, Registry.rooms_of; cbn.
  rewrite !lookup_empty. set_solver.
Qed.

Lemma registry_consistent_join room c R :
  Registry.consistent R → Registry.consistent (Registry.join room c R).
Proof.
  intros HR c' room'. rewrite registry_members_join, registry_rooms_of_join.
  specialize (HR c' room'). repeat case_decide; subst; set_solver.
Qed.

Lemma registry_consistent_leave room c R :
  Registry.consistent R → Registry.consistent (Registry.leave room c R).
Proof.
  intros HR c' room'. rewrite registry_members_leave, registry_rooms_of_leave.
  specialize (HR c' room'). repeat case_decide; subst; set_solver.
Qed.

Lemma registry_members_remove_consistent c R room :
  Registry.consistent R →
  Registry.members (Registry.removeConnectionEverywhere c R) room =
  Registry.members R room ∖ {[c]}.
Proof.
  intros HR. rewrite registry_members_remove. case_decide as H; [done|].
  specialize (HR c room). set_solver.
Qed.

Lemma registry_consistent_remove c R :
  Registry.consistent R → Registry.consistent (Registry.removeConnectionEverywhere c R).
Proof.
  intros HR c' room'.
  rewrite registry_members_remove_consistent, registry_rooms_of_remove by done.
  specialize (HR c' room'). case_decide; subst; set_solver.
Qed.

(** ** Basic facts *)

Lemma truthy_field_object (v : JsVal) (key : string) :
  truthy (field v key) = true → truthy v = true.
Proof. by destruct v. Qed.

Lemma prop_truthy (v : JsVal) (key : string) :
  truthy v = true → prop v key = Ret (field v key).
Proof. by destruct v. Qed.

Lemma any_falsy_eq (v : JsVal) (keys : list string) :
  truthy v = true →
  any_falsy v keys = Ret (negb (forallb (λ k, truthy (field v k)) keys)).
Proof.
  intros Hv. induction keys as [|key keys IH]; [done|].
  cbn [any_falsy forallb]. rewrite prop_truthy by done.
  unfold mbind, Prog_bind; cbn [bind].
  destruct (truthy (field v key)); [by rewrite IH | done].
Qed.

Lemma missing_eq (payload : JsVal) (keys : list string) :
  missing payload keys =
  Ret (negb (truthy payload && forallb (λ k, truthy (field payload k)) keys)).
Proof.
  unfold missing. destruct (truthy payload) eqn:Hp; [|done].
  by rewrite any_falsy_eq.
Qed.

Lemma names_blueprint_strings (payload : JsVal) (a n : string) :
  field payload "author" = JStr a → field payload "name" = JStr n →
  a ≠ "" → n ≠ "" → names_blueprint payload a n.
Proof.
  intros Ha Hn Ha0 Hn0. unfold names_blueprint. rewrite Ha, Hn. cbn.
  repeat split; apply negb_true_iff, String.eqb_neq; done.
Qed.

Lemma names_blueprint_room (payload : JsVal) (a n : string) :
  names_blueprint payload a n →
  roomName (field payload "author") (field payload "name") = Some (room_key a n).
Proof. intros (_ & _ & Ha & Hn). unfold roomName. by rewrite Ha, Hn. Qed.

(** ** The stages of a [draw-event] *)

(** A valid [draw-event] suspends on the PUT; [k1] and [k2] are what the
    handler does when the PUT and then the GET settle. *)
Lemma draw_event_stages (payload : JsVal) (ack : AckArg) (a n : string) :
  names_blueprint payload a n →
  truthy (field payload "point") = true →
  ∃ k1 k2,
    draw_event payload ack = Await (Put (points_url a n) (field payload "point")) k1 ∧
    (∀ r, k1 (Resolved r) = Await (Get (blueprint_url a n)) k2) ∧
    (∀ c R err,
       advance c R (k1 (Rejected err)) =
       (R,
        match to_string (persist_failure_reason err) with
        | Some reason =>
            acks c ack (ack_failure ("Failed to persist point: " +:+ reason)) ++
            [Sent c "error" (message_obj ("Failed to persist point: " +:+ reason))]
        | None =>
            acks c ack (ack_failure "Internal server error") ++
            [Sent c "error" (message_obj "Internal server error handling draw-event")]
        end,
        None)) ∧
    (∀ c R err,
       advance c R (k2 (Rejected err)) =
       (R,
        acks c ack (ack_failure ("Failed to fetch updated blueprint: " +:+ message err)) ++
        [Sent c "warning"
           (message_obj ("Failed to fetch updated blueprint: " +:+ message err))],
        None)) ∧
    (∀ c R res,
       advance c R (k2 (Resolved res)) =
       (R,
        if truthy (data res) && truthy (field (data res) "data") then
          [Broadcast (room_key a n) "blueprint-update" (field (data res) "data")
             (Registry.broadcast (room_key a n) R)] ++
          acks c ack ack_success
        else
          acks c ack (ack_failure "Blueprint not found after persisting point") ++
          [Sent c "warning" (message_obj "Blueprint not found after persisting point")],
        None)).
Proof.
  intros Hid Hpoint.
  pose proof (names_blueprint_room _ _ _ Hid) as Hroom.
  destruct Hid as (Hauthor & Hname & Ha & Hn).
  pose proof (truthy_field_object _ _ Hpoint) as Hpayload.
  eexists _, _. split; [|split].
  - unfold draw_event. rewrite missing_eq. cbn [forallb].
    rewrite Hpayload, Hauthor, Hname, Hpoint. cbn [andb negb].
    rewrite !prop_truthy by done. unfold mbind, Prog_bind. cbn [bind].
    rewrite Hroom.
    unfold persistPoint, fetchBlueprint, encodeURIComponent. rewrite Ha, Hn.
    cbn. reflexivity.
  - intros r. cbn. reflexivity.
  - repeat split.
    + intros c R err. cbn.
      destruct (to_string (persist_failure_reason err)); destruct ack; reflexivity.
    + intros c R err. cbn. destruct ack; reflexivity.
    + intros c R res. cbn.
      destruct (truthy (data res)) eqn:E1; cbn;
        [destruct (truthy (field (data res) "data")) eqn:E2; cbn; rewrite ?E2; cbn|];
        destruct ack; reflexivity.
Qed.

(** ** The event loop, step by step *)

Lemma run_cons (g : Gateway) (i : Input) (inputs : list Input) :
  run g (i :: inputs) =
  ((run (step g i).1 inputs).1, (step g i).2 ++ (run (step g i).1 inputs).2).
Proof.
  change (run g (i :: inputs)) with
    (let '(g1, out1) := step g i in
     let '(g2, out2) := run g1 inputs in (g2, out1 ++ out2)).
  destruct (step g i) as [g1 out1]. cbn [fst snd]. by destruct (run g1 inputs).
Qed.

Lemma run_app (g : Gateway) (l1 l2 : list Input) :
  run g (l1 ++ l2) =
  ((run (run g l1).1 l2).1, (run g l1).2 ++ (run (run g l1).1 l2).2).
Proof.
  revert g. induction l1 as [|i l1 IH]; intros g.
  - cbn. by destruct (run g l2).
  - rewrite <- app_comm_cons, !run_cons, IH. cbn [fst snd]. by rewrite app_assoc.
Qed.

Lemma start_suspended (g : Gateway) (c : SocketId) (p : Prog unit)
    (req : Request) (k : Outcome → Prog unit) :
  p = Await req k →
  start c p g = (waiting (next_task g) c req k (accepted g), [Requested (next_task g) req]).
Proof. by intros ->. Qed.

Lemma settle_finished (g : Gateway) (t : nat) (c : SocketId) req k o R out :
  parked g t c req k →
  advance c (registry g) (k o) = (R, out, None) →
  step g (Settled t o) = (mkGateway R (delete t (pending g)) (next_task g), out).
Proof.
  unfold parked. intros Hp Hadv. cbn [step]. rewrite Hp. cbn [task_socket task_resume].
  unfold schedule. by rewrite Hadv.
Qed.

Lemma settle_suspended (g : Gateway) (t : nat) (c : SocketId) req k o req' k' :
  parked g t c req k →
  k o = Await req' k' →
  step g (Settled t o) = (waiting t c req' k' g, [Requested t req']).
Proof.
  unfold parked. intros Hp Hk. cbn [step]. rewrite Hp. cbn [task_socket task_resume].
  unfold schedule. by rewrite Hk.
Qed.

Lemma schedule_other (id : nat) (c : SocketId) (p : Prog unit) (g : Gateway) (t : nat) :
  t ≠ id →
  pending (schedule id c p g).1 !! t = pending g !! t ∧
  next_task (schedule id c p g).1 = next_task g.
Proof.
  intros Hne. unfold schedule.
  destruct (advance c (registry g) p) as [[R out] [[req k]|]]; cbn.
  - by rewrite lookup_insert_ne.
  - by rewrite lookup_delete_ne.
Qed.

Lemma step_other (g : Gateway) (i : Input) (t : nat) :
  (∀ o, i ≠ Settled t o) → t < next_task g →
  pending (step g i).1 !! t = pending g !! t ∧ t < next_task (step g i).1.
Proof.
  intros Hi Ht.
  assert (∀ c p g', pending g' = pending g → next_task g' = next_task g →
            pending (start c p g').1 !! t = pending g !! t ∧
            t < next_task (start c p g').1) as Hstart.
  { intros c p g' Hp Hn. unfold start.
    destruct (schedule_other (next_task g') c p
                (mkGateway (registry g') (pending g') (S (next_task g'))) t) as [-> ->];
      cbn; [lia|]. rewrite Hp. split; [done|lia]. }
  destruct i as [c payload|c payload ack|c payload|c|t' o]; cbn [step];
    try (by apply Hstart).
  destruct (pending g !! t') as [task|] eqn:E; [|done].
  destruct (schedule_other t' (task_socket task) (task_resume task o) g t) as [-> ->];
    [|done]. intros ->. by apply (Hi o).
Qed.

Lemma run_keeps_parked (g : Gateway) (mid : list Input) (t : nat) c req k :
  others t mid → parked g t c req k → t < next_task g →
  parked (run g mid).1 t c req k ∧ t < next_task (run g mid).1.
Proof.
  unfold parked. revert g. induction mid as [|i mid IH]; intros g Hmid Hp Ht; [done|].
  apply Forall_cons in Hmid as [Hi Hmid]. rewrite run_cons. cbn [fst].
  destruct (step_other g i t Hi Ht) as [Hp' Ht'].
  apply IH; [done| |done]. by rewrite Hp'.
Qed.

(** A valid [draw-event], then anything but the settling of its PUT: the
    handler is parked on the PUT. *)
Lemma draw_event_persisting (g : Gateway) (c : SocketId) (payload : JsVal) (ack : AckArg)
    (a n : string) (mid : list Input) k1 :
  draw_event payload ack = Await (Put (points_url a n) (field payload "point")) k1 →
  others (next_task g) mid →
  let g1 := (run g (OnDrawEvent c payload ack :: mid)).1 in
  parked g1 (next_task g) c (Put (points_url a n) (field payload "point")) k1 ∧
  next_task g < next_task g1.
Proof.
  intros Hshape Hmid g1. subst g1. rewrite run_cons. cbn [fst step].
  rewrite (start_suspended _ _ _ _ _ Hshape). cbn [fst].
  apply run_keeps_parked; [done| |cbn; lia].
  unfold parked, waiting; cbn. by rewrite lookup_insert_eq.
Qed.

(** ... then the PUT resolves, then anything but the settling of the GET:
    the handler is parked on the GET. *)
Lemma draw_event_fetching (g : Gateway) (c : SocketId) (payload : JsVal) (ack : AckArg)
    (a n : string) (mid1 mid2 : list Input) (r : Response) k1 k2 :
  draw_event payload ack = Await (Put (points_url a n) (field payload "point")) k1 →
  (∀ r, k1 (Resolved r) = Await (Get (blueprint_url a n)) k2) →
  others (next_task g) mid1 → others (next_task g) mid2 →
  let t := next_task g in
  let g2 := (run g (OnDrawEvent c payload ack :: mid1 ++ Settled t (Resolved r) :: mid2)).1 in
  parked g2 t c (Get (blueprint_url a n)) k2.
Proof.
  intros Hshape Hk1 Hmid1 Hmid2 t g2. subst t g2.
  rewrite app_comm_cons, run_app. cbn [fst]. rewrite run_cons. cbn [fst].
  destruct (draw_event_persisting g c payload ack a n mid1 k1 Hshape Hmid1) as [Hp Ht].
  rewrite (settle_suspended _ _ _ _ _ _ _ _ Hp (Hk1 r)).
  cbn [fst]. apply run_keeps_parked; [done| |exact Ht].
  unfold parked, waiting; cbn. by rewrite lookup_insert_eq.
Qed.

(** ** [fetchBlueprint] *)

Lemma fetchBlueprint_settles (author name : JsVal) (a n : string) :
  to_string author = Some a → to_string name = Some n →
  (∀ res,
     execute (fetchBlueprint author name) [Resolved res] =
     ([inr (Get (blueprint_url a n))],
      Returned (if truthy (data res) && truthy (field (data res) "data")
                then field (data res) "data" else JNull))) ∧
  (∀ err,
     execute (fetchBlueprint author name) [Rejected err] =
     ([inr (Get (blueprint_url a n))], Thrown err)).
Proof.
  intros Ha Hn. unfold fetchBlueprint, encodeURIComponent. rewrite Ha, Hn.
  split; [intros res|intros err]; cbn; [|done].
  by destruct (truthy (data res) && truthy (field (data res) "data")).
Qed.

Lemma fetchBlueprint_absent (author name : JsVal) (a n : string) (res : Response) :
  to_string author = Some a → to_string name = Some n →
  (execute (fetchBlueprint author name) [Resolved res]).2 = Returned JNull →
  truthy (data res) && truthy (field (data res) "data") = false.
Proof.
  intros Ha Hn. destruct (fetchBlueprint_settles author name a n Ha Hn) as [-> _].
  cbn [snd]. destruct (truthy (data res)); [|done]. cbn [andb].
  destruct (truthy (field (data res) "data")) eqn:E; [|done].
  intros [= H]. by rewrite H in E.
Qed.

Lemma fetchBlueprint_present (author name : JsVal) (a n : string) (res : Response)
    (doc : JsVal) :
  to_string author = Some a → to_string name = Some n →
  (execute (fetchBlueprint author name) [Resolved res]).2 = Returned doc →
  doc ≠ JNull →
  truthy (data res) && truthy (field (data res) "data") = true ∧
  field (data res) "data" = doc.
Proof.
  intros Ha Hn. destruct (fetchBlueprint_settles author name a n Ha Hn) as [-> _].
  cbn [snd]. destruct (truthy (data res) && truthy (field (data res) "data"));
    intros [= <-]; done.
Qed.

(** C8 (as amended): [fetchBlueprint] issues one GET for the blueprint; when
    the reply's envelope carries a truthy [data] it returns that [data];
    when [data] is missing, [null] or any other falsy value (or the body is
    no envelope at all) it returns [null], the absent outcome, without
    throwing; and when the request itself fails it throws the failure, which
    no returned value can be confused with. *)
Theorem fetchBlueprint_unwraps_envelope (author name : JsVal) (a n : string) :
  to_string author = Some a → to_string name = Some n →
  (∀ res, truthy (field (data res) "data") = true →
     execute (fetchBlueprint author name) [Resolved res] =
     ([inr (Get (blueprint_url a n))], Returned (field (data res) "data"))) ∧
  (∀ res, truthy (field (data res) "data") = false →
     execute (fetchBlueprint author name) [Resolved res] =
     ([inr (Get (blueprint_url a n))], Returned JNull)) ∧
  (∀ err,
     execute (fetchBlueprint author name) [Rejected err] =
     ([inr (Get (blueprint_url a n))], Thrown err)) ∧
  (∀ res err,
     (execute (fetchBlueprint author name) [Resolved res]).2 ≠
     (execute (fetchBlueprint author name) [Rejected err]).2).
Proof.
  intros Ha Hn. destruct (fetchBlueprint_settles author name a n Ha Hn) as [Hres Herr].
  repeat split.
  - intros res Hd. rewrite Hres, Hd, (truthy_field_object _ _ Hd). done.
  - intros res Hd. rewrite Hres, Hd, andb_false_r. done.
  - done.
  - intros res err. rewrite Hres, Herr. done.
Qed.

(** ** [draw-event] *)

(** C6: a [draw-event] whose payload is absent, or in which [author], [name]
    or [point] is missing (or otherwise falsy), is answered at once: the
    acknowledgment, when there is one, gets [{ok: false, message}] naming the
    three required fields, the caller gets an ['error'] event, and the
    handler is over with nothing else done: no request is sent to the
    persistence service, nothing is broadcast, no room changes. *)
Theorem draw_event_missing_field (g : Gateway) (c : SocketId) (payload : JsVal)
    (ack : AckArg) :
  truthy payload && truthy (field payload "author") && truthy (field payload "name")
    && truthy (field payload "point") = false →
  step g (OnDrawEvent c payload ack) =
  (finished (next_task g) (accepted g),
   acks c ack (ack_failure "draw-event: missing author, name or point") ++
   [Sent c "error" (message_obj "draw-event: missing author, name or point")]).
Proof.
  intros Hmissing. cbn [step]. unfold start, draw_event.
  rewrite missing_eq. cbn [forallb]. rewrite andb_true_r, !andb_assoc, Hmissing.
  by destruct ack.
Qed.

(** C1: in a [draw-event] with [author], [name] and [point] present, the
    handler sends the PUT; whatever else happens meanwhile, when that PUT
    fails the acknowledgment (when there is one) gets [{ok: false, message}],
    the caller gets an ['error'] event, and the handler is over: no GET is
    sent, nothing is broadcast, no room changes.  The message is
    ["Failed to persist point: "] followed by the reason; only when the
    service's own error message is an object that cannot be printed does the
    outer [catch] answer instead, with "Internal server error". *)
Theorem draw_event_persist_failure (g : Gateway) (c : SocketId) (payload : JsVal)
    (ack : AckArg) (a n : string) (mid : list Input) (err : JsError) :
  names_blueprint payload a n →
  truthy (field payload "point") = true →
  others (next_task g) mid →
  let t := next_task g in
  let g1 := (run g (OnDrawEvent c payload ack :: mid)).1 in
  (step g (OnDrawEvent c payload ack)).2 =
    [Requested t (Put (points_url a n) (field payload "point"))] ∧
  ∃ ack_msg event_msg,
    step g1 (Settled t (Rejected err)) =
      (finished t g1,
       acks c ack (ack_failure ack_msg) ++ [Sent c "error" (message_obj event_msg)]) ∧
    (∀ reason, to_string (persist_failure_reason err) = Some reason →
       ack_msg = "Failed to persist point: " +:+ reason ∧ event_msg = ack_msg) ∧
    (to_string (persist_failure_reason err) = None →
       ack_msg = "Internal server error" ∧
       event_msg = "Internal server error handling draw-event").
Proof.
  intros Hid Hpoint Hmid t g1.
  destruct (draw_event_stages payload ack a n Hid Hpoint)
    as (k1 & k2 & Hshape & _ & Hfail & _).
  destruct (draw_event_persisting g c payload ack a n mid k1 Hshape Hmid) as [Hp _].
  fold t g1 in Hp. split.
  { cbn [step]. by rewrite (start_suspended _ _ _ _ _ Hshape). }
  rewrite (settle_finished _ _ _ _ _ _ _ _ Hp (Hfail c (registry g1) err)).
  destruct (to_string (persist_failure_reason err)) as [reason|].
  - eexists _, _. split; [reflexivity|]. split; [|done]. by intros ? [= <-].
  - eexists _, _. split; [reflexivity|]. done.
Qed.

(** C4: in a valid [draw-event] whose PUT succeeds, the handler sends the
    GET; whatever else happens meanwhile, when that GET fails the
    acknowledgment (when there is one) gets [{ok: false, message}], the
    caller gets a ['warning'] event and no ['error'], and the handler is
    over: nothing is broadcast, no room changes. *)
Theorem draw_event_fetch_failure (g : Gateway) (c : SocketId) (payload : JsVal)
    (ack : AckArg) (a n : string) (mid1 mid2 : list Input) (r : Response)
    (err : JsError) :
  names_blueprint payload a n →
  truthy (field payload "point") = true →
  others (next_task g) mid1 → others (next_task g) mid2 →
  let t := next_task g in
  let g1 := (run g (OnDrawEvent c payload ack :: mid1)).1 in
  let g2 := (run g (OnDrawEvent c payload ack :: mid1 ++ Settled t (Resolved r) :: mid2)).1 in
  let msg := "Failed to fetch updated blueprint: " +:+ message err in
  (step g1 (Settled t (Resolved r))).2 = [Requested t (Get (blueprint_url a n))] ∧
  step g2 (Settled t (Rejected err)) =
    (finished t g2,
     acks c ack (ack_failure msg) ++ [Sent c "warning" (message_obj msg)]).
Proof.
  intros Hid Hpoint Hmid1 Hmid2. cbv zeta.
  destruct (draw_event_stages payload ack a n Hid Hpoint)
    as (k1 & k2 & Hshape & Hk1 & _ & Hfail & _).
  destruct (draw_event_persisting g c payload ack a n mid1 k1 Hshape Hmid1) as [Hp1 _].
  pose proof (draw_event_fetching g c payload ack a n mid1 mid2 r k1 k2
                Hshape Hk1 Hmid1 Hmid2) as Hp2.
  split.
  - by rewrite (settle_suspended _ _ _ _ _ _ _ _ Hp1 (Hk1 r)).
  - by rewrite (settle_finished _ _ _ _ _ _ _ _ Hp2 (Hfail c _ err)).
Qed.

(** C5: in a valid [draw-event] whose PUT succeeds, when the GET succeeds
    but [fetchBlueprint] returns [null] (no document), the acknowledgment
    (when there is one) gets [{ok: false, message: "Blueprint not found
    after persisting point"}], the caller gets a ['warning'] event, and the
    handler is over: nothing is broadcast, no room changes. *)
Theorem draw_event_fetch_absent (g : Gateway) (c : SocketId) (payload : JsVal)
    (ack : AckArg) (a n : string) (mid1 mid2 : list Input) (r res : Response) :
  names_blueprint payload a n →
  truthy (field payload "point") = true →
  others (next_task g) mid1 → others (next_task g) mid2 →
  (execute (fetchBlueprint (field payload "author") (field payload "name"))
     [Resolved res]).2 = Returned JNull →
  let t := next_task g in
  let g2 := (run g (OnDrawEvent c payload ack :: mid1 ++ Settled t (Resolved r) :: mid2)).1 in
  let msg := "Blueprint not found after persisting point" in
  step g2 (Settled t (Resolved res)) =
    (finished t g2,
     acks c ack (ack_failure msg) ++ [Sent c "warning" (message_obj msg)]).
Proof.
  intros Hid Hpoint Hmid1 Hmid2 Habsent. cbv zeta.
  destruct (draw_event_stages payload ack a n Hid Hpoint)
    as (k1 & k2 & Hshape & Hk1 & _ & _ & Hres).
  pose proof (draw_event_fetching g c payload ack a n mid1 mid2 r k1 k2
                Hshape Hk1 Hmid1 Hmid2) as Hp2.
  rewrite (settle_finished _ _ _ _ _ _ _ _ Hp2 (Hres c _ res)).
  destruct Hid as (_ & _ & Ha & Hn).
  by rewrite (fetchBlueprint_absent _ _ a n res Ha Hn Habsent).
Qed.

(** C3: a valid [draw-event] sends the PUT and nothing else; when the PUT
    succeeds it sends the GET and nothing else; and when the GET succeeds
    and [fetchBlueprint] returns a document, the handler emits exactly one
    ['blueprint-update'] carrying that document to the room of the
    blueprint, delivered to every connection that is a member of the room at
    that moment, the caller no less than the others, and then calls the
    acknowledgment (when there is one) with [{ok: true}]; the handler is
    then over. *)
Theorem draw_event_broadcasts_once (g : Gateway) (c : SocketId) (payload : JsVal)
    (ack : AckArg) (a n : string) (mid1 mid2 : list Input) (r res : Response)
    (doc : JsVal) :
  names_blueprint payload a n →
  truthy (field payload "point") = true →
  others (next_task g) mid1 → others (next_task g) mid2 →
  (execute (fetchBlueprint (field payload "author") (field payload "name"))
     [Resolved res]).2 = Returned doc →
  doc ≠ JNull →
  let t := next_task g in
  let g1 := (run g (OnDrawEvent c payload ack :: mid1)).1 in
  let g2 := (run g (OnDrawEvent c payload ack :: mid1 ++ Settled t (Resolved r) :: mid2)).1 in
  let room := room_key a n in
  roomName (field payload "author") (field payload "name") = Some room ∧
  (step g (OnDrawEvent c payload ack)).2 =
    [Requested t (Put (points_url a n) (field payload "point"))] ∧
  (step g1 (Settled t (Resolved r))).2 = [Requested t (Get (blueprint_url a n))] ∧
  ∃ to,
    step g2 (Settled t (Resolved res)) =
      (finished t g2,
       [Broadcast room "blueprint-update" doc to] ++ acks c ack ack_success) ∧
    (∀ member, member ∈ to ↔ member ∈ Registry.members (registry g2) room) ∧
    (c ∈ Registry.members (registry g2) room →
     reaches c (Broadcast room "blueprint-update" doc to)).
Proof.
  intros Hid Hpoint Hmid1 Hmid2 Hdoc Hpresent. cbv zeta.
  destruct (draw_event_stages payload ack a n Hid Hpoint)
    as (k1 & k2 & Hshape & Hk1 & _ & _ & Hres).
  pose proof (draw_event_fetching g c payload ack a n mid1 mid2 r k1 k2
                Hshape Hk1 Hmid1 Hmid2) as Hp2.
  destruct (draw_event_persisting g c payload ack a n mid1 k1 Hshape Hmid1) as [Hp1 _].
  split; [by apply names_blueprint_room|].
  split; [cbn [step]; by rewrite (start_suspended _ _ _ _ _ Hshape)|].
  split; [by rewrite (settle_suspended _ _ _ _ _ _ _ _ Hp1 (Hk1 r))|].
  eexists. split; [|split; [reflexivity|done]].
  rewrite (settle_finished _ _ _ _ _ _ _ _ Hp2 (Hres c _ res)).
  destruct Hid as (_ & _ & Ha & Hn).
  destruct (fetchBlueprint_present _ _ a n res doc Ha Hn Hdoc Hpresent) as [-> ->].
  done.
Qed.

(** C10: when the GET succeeds with an envelope whose [data] is there but
    falsy ([0], [false], [""], ...), [fetchBlueprint] returns [null] just as
    for a missing [data]; so a valid [draw-event] whose PUT succeeded and
    whose GET brings such an envelope tells the caller "Blueprint not found
    after persisting point" (acknowledgment and ['warning']) and broadcasts
    nothing. *)
Theorem falsy_data_is_absent (g : Gateway) (c : SocketId) (payload : JsVal)
    (ack : AckArg) (a n : string) (mid1 mid2 : list Input) (r res : Response)
    (envelope : list (string * JsVal)) (d : JsVal) :
  names_blueprint payload a n →
  truthy (field payload "point") = true →
  others (next_task g) mid1 → others (next_task g) mid2 →
  data res = JObj envelope →
  own_property envelope "data" = Some d →
  truthy d = false →
  let t := next_task g in
  let g2 := (run g (OnDrawEvent c payload ack :: mid1 ++ Settled t (Resolved r) :: mid2)).1 in
  let msg := "Blueprint not found after persisting point" in
  execute (fetchBlueprint (field payload "author") (field payload "name")) [Resolved res] =
    ([inr (Get (blueprint_url a n))], Returned JNull) ∧
  step g2 (Settled t (Resolved res)) =
    (finished t g2,
     acks c ack (ack_failure msg) ++ [Sent c "warning" (message_obj msg)]).
Proof.
  intros Hid Hpoint Hmid1 Hmid2 Henv Hdata Hfalsy. cbv zeta.
  assert (truthy (data res) && truthy (field (data res) "data") = false) as Hcond.
  { rewrite Henv. cbn. by rewrite Hdata. }
  destruct (draw_event_stages payload ack a n Hid Hpoint)
    as (k1 & k2 & Hshape & Hk1 & _ & _ & Hres).
  pose proof (draw_event_fetching g c payload ack a n mid1 mid2 r k1 k2
                Hshape Hk1 Hmid1 Hmid2) as Hp2.
  destruct Hid as (_ & _ & Ha & Hn).
  destruct (fetchBlueprint_settles _ _ a n Ha Hn) as [Hget _].
  split.
  - by rewrite Hget, Hcond.
  - rewrite (settle_finished _ _ _ _ _ _ _ _ Hp2 (Hres c _ res)).
    by rewrite Hcond.
Qed.

(** ** Handlers and room membership *)

Lemma quiet_bind {A B : Type} (p : Prog A) (f : A → Prog B) :
  quiet p → (∀ a, quiet (f a)) → quiet (bind p f).
Proof.
  intros Hp Hf. induction p as [a|err|act next IH|req resume IH]; cbn in *; [done..| |].
  - destruct act; try done; by apply IH.
  - intros o. by apply IH.
Qed.

Lemma quiet_try_catch {A : Type} (p : Prog A) (h : JsError → Prog A) :
  quiet p → (∀ err, quiet (h err)) → quiet (try_catch p h).
Proof.
  intros Hp Hh. induction p as [a|err|act next IH|req resume IH]; cbn in *; [done..| |].
  - destruct act; try done; by apply IH.
  - intros o. by apply IH.
Qed.

Lemma quiet_attempt {A : Type} (p : Prog A) : quiet p → quiet (attempt p).
Proof.
  intros Hp. unfold attempt. apply quiet_try_catch; [|done].
  by apply quiet_bind.
Qed.

Lemma quiet_prop (v : JsVal) (key : string) : quiet (prop v key).
Proof. by destruct v. Qed.

Lemma quiet_or_throw {A : Type} (o : option A) : quiet (or_throw o : Prog A).
Proof. by destruct o. Qed.

Lemma quiet_missing (payload : JsVal) (keys : list string) : quiet (missing payload keys).
Proof. by rewrite missing_eq. Qed.

Lemma quiet_await (req : Request) : quiet (await req).
Proof. by intros []. Qed.

Lemma quiet_call_ack (ack : AckArg) (arg : JsVal) : quiet (call_ack ack arg).
Proof. by destruct ack. Qed.

Lemma quiet_emit (event : string) (arg : JsVal) : quiet (perform (SocketEmit event arg)).
Proof. done. Qed.

Lemma quiet_broadcast (room event : string) (arg : JsVal) :
  quiet (perform (IoToEmit room event arg)).
Proof. done. Qed.

Create HintDb quiet.
#[local] Hint Resolve quiet_prop quiet_or_throw quiet_missing quiet_await quiet_call_ack
  quiet_emit quiet_broadcast : quiet.

Ltac quiet_step :=
  lazymatch goal with
  | |- quiet (bind _ _) => apply quiet_bind; [|intros ?]
  | |- quiet (try_catch _ _) => apply quiet_try_catch; [|intros ?]
  | |- quiet (attempt _) => apply quiet_attempt
  | |- quiet (match ?x with _ => _ end) => destruct x
  | |- quiet (Ret _) => exact I
  | |- _ => solve [auto with quiet]
  end.

Lemma quiet_persistPoint (author name point : JsVal) :
  quiet (persistPoint author name point).
Proof. unfold persistPoint, mbind, Prog_bind. repeat quiet_step. Qed.

Lemma quiet_fetchBlueprint (author name : JsVal) : quiet (fetchBlueprint author name).
Proof. unfold fetchBlueprint, mbind, Prog_bind. repeat quiet_step. Qed.

#[local] Hint Resolve quiet_persistPoint quiet_fetchBlueprint : quiet.

(** A [draw-event] never joins or leaves a room. *)
Lemma quiet_draw_event (payload : JsVal) (ack : AckArg) : quiet (draw_event payload ack).
Proof. unfold draw_event, mbind, Prog_bind. repeat quiet_step. Qed.

(** A [join-room] either is turned down with an ['error'] event, or joins
    the requested room and suspends on the GET, after which it no longer
    touches the rooms. *)
Lemma join_room_cases (payload : JsVal) :
  match requested_room payload with
  | None => ∃ msg, join_room payload = perform (SocketEmit "error" (message_obj msg))
  | Some room =>
      ∃ req k, join_room payload = Act (SocketJoin room) (Await req k) ∧
               ∀ o, quiet (k o)
  end.
Proof.
  unfold requested_room, join_room. rewrite missing_eq. cbn [forallb].
  rewrite andb_true_r, andb_assoc.
  destruct (truthy payload && truthy (field payload "author") &&
            truthy (field payload "name")) eqn:Hvalid; cbn [negb];
    [|by eexists].
  apply andb_prop in Hvalid as [Hvalid _]. apply andb_prop in Hvalid as [Hpayload _].
  rewrite !prop_truthy by done. unfold mbind, Prog_bind. cbn [bind].
  destruct (roomName (field payload "author") (field payload "name"))
    as [room|] eqn:Hroom; [|by eexists].
  unfold roomName in Hroom.
  destruct (to_string (field payload "author")) as [a|] eqn:Ha; [|done].
  destruct (to_string (field payload "name")) as [n|] eqn:Hn; [|done].
  unfold fetchBlueprint, encodeURIComponent. rewrite Ha, Hn.
  eexists _, _. split; [reflexivity|].
  intros [res|err]; cbn; [|done].
  destruct (truthy (data res) && truthy (field (data res) "data")); cbn; [|done].
  by destruct (truthy (field (data res) "data")).
Qed.

(** A [leave-room] leaves the requested room, if any, and is over. *)
Lemma leave_room_cases (payload : JsVal) :
  leave_room payload =
  match requested_room payload with
  | None => Ret tt
  | Some room => perform (SocketLeave room)
  end.
Proof.
  unfold requested_room, leave_room. rewrite missing_eq. cbn [forallb].
  rewrite andb_true_r, andb_assoc.
  destruct (truthy payload && truthy (field payload "author") &&
            truthy (field payload "name")) eqn:Hvalid; cbn [negb]; [|done].
  apply andb_prop in Hvalid as [Hvalid _]. apply andb_prop in Hvalid as [Hpayload _].
  rewrite !prop_truthy by done. unfold mbind, Prog_bind. cbn [bind].
  by destruct (roomName (field payload "author") (field payload "name")).
Qed.

(** A quiet program leaves the registry as it is, stays quiet if it
    suspends, and broadcasts only to members of the registry as it is. *)
Lemma advance_quiet (c : SocketId) (R : Registry.t) (p : Prog unit) :
  quiet p →
  (advance c R p).1.1 = R ∧
  (∀ req k, (advance c R p).2 = Some (req, k) → ∀ o, quiet (k o)) ∧
  (∀ c' e, e ∈ (advance c R p).1.2 → reaches c' e →
     ∃ room, c' ∈ Registry.members R room).
Proof.
  induction p as [[]|err|act next IH|req resume IH]; intros Hq.
  - cbn. repeat split; [done|]. by intros c' e ?%elem_of_nil.
  - cbn. repeat split; [done|]. intros c' e ->%list_elem_of_singleton. done.
  - cbn [advance].
    assert (quiet next ∧ (do_action c R act).1 = R ∧
            ∀ c' e, e ∈ (do_action c R act).2 → reaches c' e →
                    ∃ room, c' ∈ Registry.members R room) as (Hnext & HR & Hout).
    { destruct act; cbn in Hq |- *; try done; (split; [done|]); (split; [done|]);
        intros c' e ->%list_elem_of_singleton; try done.
      intros Hin. by exists room. }
    destruct (do_action c R act) as [R1 out1]. cbn [fst snd] in HR, Hout. subst R1.
    destruct (IH Hnext) as (IH1 & IH2 & IH3).
    destruct (advance c R next) as [[R2 out2] rest]. cbn [fst snd] in *.
    repeat split; [done|done|].
    intros c' e [Hin|Hin]%elem_of_app; eauto.
  - cbn. repeat split; [|by intros c' e ?%elem_of_nil].
    intros req' k' [= _ <-]. apply Hq.
Qed.

Lemma schedule_sound (id : nat) (c : SocketId) (p : Prog unit) (g : Gateway)
    (R : Registry.t) (out : list Event) (rest : option (Request * (Outcome → Prog unit))) :
  advance c (registry g) p = (R, out, rest) →
  Registry.consistent R →
  (∀ t task, pending g !! t = Some task → ∀ o, quiet (task_resume task o)) →
  (∀ req k, rest = Some (req, k) → ∀ o, quiet (k o)) →
  sound (schedule id c p g).1 ∧
  registry (schedule id c p g).1 = R ∧
  (∀ c' e, e ∈ (schedule id c p g).2 → reaches c' e → e ∈ out).
Proof.
  intros Hadv HR Htasks Hrest. unfold schedule. rewrite Hadv.
  destruct rest as [[req k]|]; cbn [fst snd registry].
  - split; [split; [done|]|split; [done|]].
    + cbn. intros t task [[-> <-]|[_ Ht]]%lookup_insert_Some; cbn; eauto.
    + intros c' e [Hin| ->%list_elem_of_singleton]%elem_of_app; done.
  - split; [split; [done|]|split; [done|done]].
    cbn. intros t task [_ Ht]%lookup_delete_Some. eauto.
Qed.

Lemma schedule_quiet (id : nat) (c : SocketId) (p : Prog unit) (g : Gateway) :
  Registry.consistent (registry g) →
  (∀ t task, pending g !! t = Some task → ∀ o, quiet (task_resume task o)) →
  quiet p →
  sound (schedule id c p g).1 ∧
  registry (schedule id c p g).1 = registry g ∧
  (∀ c' e, e ∈ (schedule id c p g).2 → reaches c' e →
     ∃ room, c' ∈ Registry.members (registry g) room).
Proof.
  intros Hcons Htasks Hq.
  destruct (advance_quiet c (registry g) p Hq) as (HR & Hrest & Hout).
  destruct (advance c (registry g) p) as [[R out] rest] eqn:Hadv.
  cbn [fst snd] in *. subst R.
  destruct (schedule_sound id c p g _ _ _ Hadv Hcons Htasks Hrest) as (Hs & Hreg & Hev).
  split; [done|]. split; [done|]. eauto.
Qed.

(** One turn of the loop keeps the gateway sound, changes the registry as
    [registry_after] says, and broadcasts only to connections that were
    members of some room when the turn began. *)
Lemma step_sound (g : Gateway) (i : Input) :
  sound g →
  sound (step g i).1 ∧
  registry (step g i).1 = registry_after i (registry g) ∧
  (∀ c' e, e ∈ (step g i).2 → reaches c' e →
     ∃ room, c' ∈ Registry.members (registry g) room).
Proof.
  intros [Hcons Htasks].
  assert (∀ R : Registry.t, ∀ c' e, e ∈ @nil Event → reaches c' e →
            ∃ room, c' ∈ Registry.members R room) as Hnil
    by (by intros R c' e ?%elem_of_nil).
  destruct i as [c payload|c payload ack|c payload|c|t o]; cbn [step registry_after].
  - pose proof (join_room_cases payload) as Hcases. unfold start.
    destruct (requested_room payload) as [room|].
    + destruct Hcases as (req & k & Hshape & Hk).
      edestruct (schedule_sound (next_task g) c (join_room payload)
                   (mkGateway (registry g) (pending g) (S (next_task g))))
        as (Hs & Hreg & Hev).
      * rewrite Hshape. reflexivity.
      * by apply registry_consistent_join.
      * done.
      * intros req' k' [= _ <-]. done.
      * split; [done|]. split; [done|]. intros c' e Hin Hr.
        by pose proof (Hev c' e Hin Hr) as ?%elem_of_nil.
    + destruct Hcases as (msg & Hshape).
      edestruct (schedule_sound (next_task g) c (join_room payload)
                   (mkGateway (registry g) (pending g) (S (next_task g))))
        as (Hs & Hreg & Hev).
      * rewrite Hshape. reflexivity.
      * done.
      * done.
      * done.
      * split; [done|]. split; [done|]. intros c' e Hin Hr.
        pose proof (Hev c' e Hin Hr) as ->%list_elem_of_singleton. destruct Hr.
  - unfold start.
    by apply (schedule_quiet _ c _ (mkGateway (registry g) (pending g) (S (next_task g))));
      [..|apply quiet_draw_event].
  - unfold start.
    edestruct (schedule_sound (next_task g) c (leave_room payload)
                 (mkGateway (registry g) (pending g) (S (next_task g))))
      as (Hs & Hreg & Hev).
    + rewrite leave_room_cases. cbn [registry].
      instantiate (1 := None). instantiate (1 := []).
      instantiate (1 := registry_after (OnLeaveRoom c payload) (registry g)).
      cbn [registry_after]. by destruct (requested_room payload).
    + cbn [registry_after]. destruct (requested_room payload); [|done].
      by apply registry_consistent_leave.
    + done.
    + done.
    + split; [done|]. split; [done|]. intros c' e Hin Hr.
      by pose proof (Hev c' e Hin Hr) as ?%elem_of_nil.
  - unfold start.
    edestruct (schedule_sound (next_task g) c disconnect
                 (mkGateway (Registry.removeConnectionEverywhere c (registry g))
                    (pending g) (S (next_task g))))
      as (Hs & Hreg & Hev).
    + reflexivity.
    + by apply registry_consistent_remove.
    + done.
    + done.
    + split; [done|]. split; [done|]. intros c' e Hin Hr.
      by pose proof (Hev c' e Hin Hr) as ?%elem_of_nil.
  - destruct (pending g !! t) as [task|] eqn:Ht; cbn [fst snd].
    + apply schedule_quiet; [done..|]. by apply (Htasks t task).
    + split; [by split|]. split; [done|]. apply Hnil.
Qed.

Lemma sound_initial : sound (initial : Gateway).
Proof.
  split; [apply registry_consistent_empty|].
  intros t task Ht. cbn in Ht. by rewrite lookup_empty in Ht.
Qed.

Lemma run_sound (g : Gateway) (inputs : list Input) :
  sound g →
  sound (run g inputs).1 ∧
  registry (run g inputs).1 = foldl (λ R i, registry_after i R) (registry g) inputs.
Proof.
  revert g. induction inputs as [|i inputs IH]; intros g Hg; [done|].
  rewrite run_cons. cbn [fst foldl].
  destruct (step_sound g i Hg) as (Hg1 & <- & _). by apply IH.
Qed.

(** ** [roomName] *)

Lemma has_hyphen_separator (a n : string) : has_hyphen (a +:+ "-" +:+ n) = true.
Proof.
  induction a as [|ch a IH]; [done|].
  change (has_hyphen (String ch a +:+ "-" +:+ n))
    with (Ascii.eqb ch "-" || has_hyphen (a +:+ "-" +:+ n)).
  rewrite IH. apply orb_true_r.
Qed.

Lemma separator_unambiguous (a1 n1 a2 n2 : string) :
  (has_hyphen a1 = false ∧ has_hyphen a2 = false) ∨
  (has_hyphen n1 = false ∧ has_hyphen n2 = false) →
  a1 +:+ "-" +:+ n1 = a2 +:+ "-" +:+ n2 →
  a1 = a2 ∧ n1 = n2.
Proof.
  revert a2. induction a1 as [|ch1 a1 IH]; intros [|ch2 a2] Hfree Heq.
  - change (String "-" n1 = String "-" n2) in Heq. by injection Heq as ->.
  - change (String "-" n1 = String ch2 (a2 +:+ "-" +:+ n2)) in Heq.
    injection Heq as <- ->. destruct Hfree as [[_ H]|[H _]].
    + by cbn in H.
    + by rewrite has_hyphen_separator in H.
  - change (String ch1 (a1 +:+ "-" +:+ n1) = String "-" n2) in Heq.
    injection Heq as -> <-. destruct Hfree as [[H _]|[_ H]].
    + by cbn in H.
    + by rewrite has_hyphen_separator in H.
  - change (String ch1 (a1 +:+ "-" +:+ n1) = String ch2 (a2 +:+ "-" +:+ n2)) in Heq.
    injection Heq as -> Heq. destruct (IH a2) as [-> ->]; [|done..].
    destruct Hfree as [[H1 H2]|H]; [left|by right].
    cbn in H1, H2. apply orb_false_elim in H1 as [_ H1].
    by apply orb_false_elim in H2 as [_ H2].
Qed.

(** C2 (as amended): [roomName] is a function of its arguments (on strings
    it is ["room:" + author + "-" + name]), and two pairs of strings with the
    same room key are the same pair provided the two authors contain no
    ['-'], or the two names contain none. *)
Theorem roomName_injective_without_hyphen (a1 n1 a2 n2 : string) :
  (has_hyphen a1 = false ∧ has_hyphen a2 = false) ∨
  (has_hyphen n1 = false ∧ has_hyphen n2 = false) →
  roomName (JStr a1) (JStr n1) = Some ("room:" +:+ a1 +:+ "-" +:+ n1) ∧
  (roomName (JStr a1) (JStr n1) = roomName (JStr a2) (JStr n2) → a1 = a2 ∧ n1 = n2).
Proof.
  intros Hfree. split; [done|]. unfold roomName. cbn [to_string mbind option_bind].
  intros [= Heq]. by apply separator_unambiguous.
Qed.

(** ** [disconnect] *)

Lemma member_after (R : Registry.t) (i : Input) (c : SocketId) (room : string) :
  Registry.consistent R →
  c ∈ Registry.members (registry_after i R) room ↔
  subscription c room (bool_decide (c ∈ Registry.members R room)) i = true.
Proof.
  intros HR. destruct i as [c' payload|c' payload ack|c' payload|c'|t o];
    cbn [registry_after subscription]; try by rewrite bool_decide_eq_true.
  - destruct (requested_room payload) as [room'|].
    + rewrite registry_members_join.
      destruct (decide (c' = c ∧ Some room' = Some room)) as [[-> [= ->]]|Hd].
      * rewrite (bool_decide_eq_true_2 (c = c ∧ Some room = Some room)) by done.
        rewrite decide_True by done. set_solver.
      * rewrite (bool_decide_eq_false_2 _ Hd), bool_decide_eq_true.
        case_decide as Hroom; [|done]. subst room'.
        assert (c' ≠ c) by naive_solver. set_solver.
    + rewrite (bool_decide_eq_false_2 (c' = c ∧ None = Some room)) by naive_solver.
      by rewrite bool_decide_eq_true.
  - destruct (requested_room payload) as [room'|].
    + rewrite registry_members_leave.
      destruct (decide (c' = c ∧ Some room' = Some room)) as [[-> [= ->]]|Hd].
      * rewrite (bool_decide_eq_true_2 (c = c ∧ Some room = Some room)) by done.
        rewrite decide_True by done. set_solver.
      * rewrite (bool_decide_eq_false_2 _ Hd), bool_decide_eq_true.
        case_decide as Hroom; [|done]. subst room'.
        assert (c' ≠ c) by naive_solver. set_solver.
    + rewrite (bool_decide_eq_false_2 (c' = c ∧ None = Some room)) by naive_solver.
      by rewrite bool_decide_eq_true.
  - rewrite registry_members_remove_consistent by done.
    destruct (decide (c' = c)) as [->|Hd].
    + rewrite (bool_decide_eq_true_2 (c = c)) by done. set_solver.
    + rewrite (bool_decide_eq_false_2 _ Hd), bool_decide_eq_true. set_solver.
Qed.

(** Membership is what the requests so far make it. *)
Lemma membership_invariant (g : Gateway) (inputs : list Input) (c : SocketId)
    (room : string) (before : bool) :
  sound g →
  (c ∈ Registry.members (registry g) room ↔ before = true) →
  c ∈ Registry.members (registry (run g inputs).1) room ↔
  foldl (subscription c room) before inputs = true.
Proof.
  revert g before. induction inputs as [|i inputs IH]; intros g before Hg Hbefore;
    [done|].
  rewrite run_cons. cbn [fst foldl].
  destruct (step_sound g i Hg) as (Hg1 & Hreg & _).
  apply IH; [done|]. rewrite Hreg, member_after by apply Hg.
  destruct before.
  - by rewrite bool_decide_eq_true_2 by by apply Hbefore.
  - rewrite bool_decide_eq_false_2; [done|]. intros H. by apply Hbefore in H.
Qed.

Lemma unreached_after (R : Registry.t) (i : Input) (c : SocketId) :
  Registry.consistent R → ¬ joins c i →
  (∀ room, c ∉ Registry.members R room) →
  ∀ room, c ∉ Registry.members (registry_after i R) room.
Proof.
  intros HR Hi Hout room. rewrite member_after by done.
  rewrite bool_decide_eq_false_2 by done.
  destruct i as [c' payload|c' payload ack|c' payload|c'|t o]; cbn in Hi |- *;
    try done; repeat case_bool_decide; try done.
  destruct Hi. naive_solver.
Qed.

Lemma run_unreached (g : Gateway) (later : list Input) (c : SocketId) :
  sound g → Forall (λ i, ¬ joins c i) later →
  (∀ room, c ∉ Registry.members (registry g) room) →
  (∀ e, e ∈ (run g later).2 → ¬ reaches c e) ∧
  (∀ room, c ∉ Registry.members (registry (run g later).1) room).
Proof.
  revert g. induction later as [|i later IH]; intros g Hg Hlater Hout.
  - split; [|done]. by intros e ?%elem_of_nil.
  - apply Forall_cons in Hlater as [Hi Hlater]. rewrite run_cons. cbn [fst snd].
    destruct (step_sound g i Hg) as (Hg1 & Hreg & Hev).
    destruct (IH (step g i).1) as [IH1 IH2]; [done|done| |].
    { rewrite Hreg. apply unreached_after; [apply Hg|done..]. }
    split; [|done].
    intros e [Hin|Hin]%elem_of_app Hr; [|by apply (IH1 e)].
    destruct (Hev c e Hin Hr) as [room Hroom]. by apply (Hout room).
Qed.

(** C9: when a connection disconnects, after any sequence of requests, it
    is a member of no room any more; no broadcast made from then on reaches
    it (including those of [draw-event]s that were already under way), as
    long as it does not join again; and membership, which before the
    disconnect was what the joins, leaves and disconnects so far made it, is
    so after the disconnect too. *)
Theorem disconnect_leaves_every_room (inputs later : list Input) (c : SocketId) :
  Forall (λ i, ¬ joins c i) later →
  let g := (run initial inputs).1 in
  let g' := (step g (OnDisconnect c)).1 in
  (∀ room, c ∉ Registry.members (registry g') room) ∧
  (∀ e, e ∈ (run g' later).2 → ¬ reaches c e) ∧
  (∀ room, c ∉ Registry.members (registry (run g' later).1) room) ∧
  (∀ c' room, c' ∈ Registry.members (registry g) room ↔
              subscribed inputs c' room = true) ∧
  (∀ c' room, c' ∈ Registry.members (registry g') room ↔
              subscribed (inputs ++ [OnDisconnect c]) c' room = true).
Proof.
  intros Hlater. cbv zeta.
  destruct (run_sound initial inputs sound_initial) as [Hg _].
  destruct (step_sound _ (OnDisconnect c) Hg) as (Hg' & Hreg & _).
  assert (∀ c' room, c' ∈ Registry.members (registry (run initial inputs).1) room ↔
                     subscribed inputs c' room = true) as Hinv.
  { intros c' room. apply membership_invariant; [apply sound_initial|].
    cbn. unfold Registry.members; cbn. rewrite lookup_empty. set_solver. }
  assert (∀ room, c ∉ Registry.members
                        (registry (step (run initial inputs).1 (OnDisconnect c)).1) room)
    as Hout.
  { intros room. rewrite Hreg. cbn [registry_after].
    rewrite registry_members_remove_consistent by apply Hg. set_solver. }
  destruct (run_unreached _ later c Hg' Hlater Hout) as [Hev Hlater_out].
  repeat split; try done.
  - by apply Hinv.
  - by apply Hinv.
  - rewrite Hreg, member_after by apply Hg. unfold subscribed.
    rewrite foldl_app. cbn [foldl]. intros H.
    destruct (bool_decide (c' ∈ _)) eqn:E in H.
    + apply bool_decide_eq_true in E. apply Hinv in E. unfold subscribed in E.
      by rewrite E.
    + apply bool_decide_eq_false in E.
      destruct (foldl _ _ inputs) eqn:E'; [|done].
      exfalso. apply E, Hinv. done.
  - rewrite Hreg, member_after by apply Hg. unfold subscribed.
    rewrite foldl_app. cbn [foldl]. intros H.
    destruct (foldl _ _ inputs) eqn:E'.
    + rewrite bool_decide_eq_true_2; [done|]. by apply Hinv.
    + rewrite bool_decide_eq_false_2; [done|]. intros Hm. apply Hinv in Hm.
      unfold subscribed in Hm. congruence.
Qed.

(** A member stays one as long as it neither leaves nor disconnects. *)
Lemma stays_member (g : Gateway) (inputs : list Input) (c : SocketId) (room : string) :
  sound g → Forall (λ i, ¬ departs c i) inputs →
  c ∈ Registry.members (registry g) room →
  c ∈ Registry.members (registry (run g inputs).1) room.
Proof.
  revert g. induction inputs as [|i inputs IH]; intros g Hg Hstay Hmember; [done|].
  apply Forall_cons in Hstay as [Hi Hstay]. rewrite run_cons. cbn [fst].
  destruct (step_sound g i Hg) as (Hg1 & Hreg & _).
  apply IH; [done..|]. rewrite Hreg, member_after by apply Hg.
  rewrite bool_decide_eq_true_2 by done.
  destruct i as [c' payload|c' payload ack|c' payload|c'|t o]; cbn in Hi |- *;
    try done; repeat case_bool_decide; try done; naive_solver.
Qed.

(** ** [join-room] *)

(** C7: a [join-room] whose [author] and [name] are present puts the
    connection in the room of the blueprint and sends the GET; whatever else
    happens meanwhile, when that GET fails the gateway sends one ['warning']
    event, to the joining connection alone, and leaves every room as it is:
    the connection is a member once it has joined, the failure does not
    take it out, and it is still a member afterwards unless it has itself
    left the room or disconnected in the meantime. *)
Theorem join_room_fetch_failure (g : Gateway) (c : SocketId) (payload : JsVal)
    (a n : string) (mid : list Input) (err : JsError) :
  names_blueprint payload a n →
  others (next_task g) mid →
  let t := next_task g in
  let room := room_key a n in
  let g0 := (step g (OnJoinRoom c payload)).1 in
  let g1 := (run g (OnJoinRoom c payload :: mid)).1 in
  (step g (OnJoinRoom c payload)).2 = [Requested t (Get (blueprint_url a n))] ∧
  registry g0 = Registry.join room c (registry g) ∧
  c ∈ Registry.members (registry g0) room ∧
  step g1 (Settled t (Rejected err)) =
    (finished t g1,
     [Sent c "warning" (message_obj "Could not fetch blueprint state from API")]) ∧
  c ∈ Registry.members
        (registry (run g [OnJoinRoom c payload; Settled t (Rejected err)]).1) room ∧
  (sound g → Forall (λ i, ¬ departs c i) mid →
   c ∈ Registry.members (registry (step g1 (Settled t (Rejected err))).1) room).
Proof.
  intros Hid Hmid. cbv zeta.
  pose proof (names_blueprint_room _ _ _ Hid) as Hroom.
  pose proof Hid as (Hauthor & Hname & Ha & Hn).
  pose proof (truthy_field_object _ _ Hauthor) as Hpayload.
  assert (∃ k, join_room payload =
               Act (SocketJoin (room_key a n)) (Await (Get (blueprint_url a n)) k) ∧
               ∀ c R err, advance c R (k (Rejected err)) =
                 (R, [Sent c "warning"
                        (message_obj "Could not fetch blueprint state from API")], None))
    as (k & Hshape & Hfail).
  { eexists. split.
    - unfold join_room. rewrite missing_eq. cbn [forallb].
      rewrite Hpayload, Hauthor, Hname. cbn [andb negb].
      rewrite !prop_truthy by done. unfold mbind, Prog_bind. cbn [bind].
      rewrite Hroom. unfold fetchBlueprint, encodeURIComponent. rewrite Ha, Hn.
      cbn. reflexivity.
    - intros c' R err'. reflexivity. }
  assert (step g (OnJoinRoom c payload) =
          (waiting (next_task g) c (Get (blueprint_url a n)) k
             (mkGateway (Registry.join (room_key a n) c (registry g)) (pending g)
                (S (next_task g))),
           [Requested (next_task g) (Get (blueprint_url a n))])) as Hstep.
  { cbn [step]. unfold start. by rewrite Hshape. }
  assert (c ∈ Registry.members (Registry.join (room_key a n) c (registry g)) (room_key a n))
    as Hmember.
  { rewrite registry_members_join, decide_True by done. set_solver. }
  assert (parked (run g (OnJoinRoom c payload :: mid)).1 (next_task g) c
            (Get (blueprint_url a n)) k) as Hp.
  { rewrite run_cons, Hstep. cbn [fst].
    apply run_keeps_parked; [done| |cbn; lia].
    unfold parked, waiting; cbn. by rewrite lookup_insert_eq. }
  rewrite Hstep. cbn [fst snd].
  split; [done|]. split; [done|]. split; [exact Hmember|]. split.
  - by rewrite (settle_finished _ _ _ _ _ _ _ _ Hp (Hfail c _ err)).
  - split.
    + rewrite run_cons, Hstep. cbn [fst]. rewrite run_cons. cbn [fst run].
      erewrite settle_finished; [| |apply Hfail].
      * exact Hmember.
      * unfold parked, waiting; cbn. by rewrite lookup_insert_eq.
    + intros Hg Hstay.
      rewrite (settle_finished _ _ _ _ _ _ _ _ Hp (Hfail c _ err)). cbn [fst registry].
      rewrite run_cons. cbn [fst].
      destruct (step_sound g (OnJoinRoom c payload) Hg) as (Hg0 & _ & _).
      apply stays_member; [done..|]. by rewrite Hstep.
Qed.

(** ** The handlers on every payload *)

Lemma requested_room_names (payload : JsVal) (a n : string) :
  names_blueprint payload a n → requested_room payload = Some (room_key a n).
Proof.
  intros Hid. pose proof (names_blueprint_room _ _ _ Hid) as Hroom.
  destruct Hid as (Hauthor & Hname & _). unfold requested_room.
  by rewrite (truthy_field_object _ _ Hauthor), Hauthor, Hname.
Qed.

Lemma printable_names (payload : JsVal) (room : string) :
  truthy (field payload "author") = true →
  truthy (field payload "name") = true →
  roomName (field payload "author") (field payload "name") = Some room →
  ∃ a n, names_blueprint payload a n ∧ room = room_key a n.
Proof.
  intros Hauthor Hname Hroom. unfold roomName in Hroom.
  destruct (to_string (field payload "author")) as [a|] eqn:Ha; [|done].
  destruct (to_string (field payload "name")) as [n|] eqn:Hn; [|done].
  injection Hroom as <-. by exists a, n.
Qed.

Lemma start_finished (g : Gateway) (c : SocketId) (p : Prog unit)
    (R : Registry.t) (out : list Event) :
  advance c (registry g) p = (R, out, None) →
  start c p g = (mkGateway R (delete (next_task g) (pending g)) (S (next_task g)), out).
Proof. intros Hadv. unfold start, schedule. cbn [registry]. by rewrite Hadv. Qed.

Lemma settle_gone (g : Gateway) (t : nat) (o : Outcome) :
  pending g !! t = None → step g (Settled t o) = (g, []).
Proof. intros Ht. cbn [step]. by rewrite Ht. Qed.

Lemma run_two (g : Gateway) (i1 i2 : Input) :
  run g [i1; i2] =
  ((step (step g i1).1 i2).1, (step g i1).2 ++ (step (step g i1).1 i2).2).
Proof. rewrite !run_cons. cbn [run fst snd]. by rewrite app_nil_r. Qed.

Lemma run_three (g : Gateway) (i1 i2 i3 : Input) :
  run g [i1; i2; i3] =
  ((step (step (step g i1).1 i2).1 i3).1,
   (step g i1).2 ++ (step (step g i1).1 i2).2 ++ (step (step (step g i1).1 i2).1 i3).2).
Proof. rewrite !run_cons. cbn [run fst snd]. by rewrite app_nil_r. Qed.

(** A valid [join-room] joins the room and suspends on the GET; [k] is what
    it does when the GET settles. *)
Lemma join_room_stages (payload : JsVal) (a n : string) :
  names_blueprint payload a n →
  ∃ k,
    join_room payload =
      Act (SocketJoin (room_key a n)) (Await (Get (blueprint_url a n)) k) ∧
    (∀ c R err,
       advance c R (k (Rejected err)) =
       (R, [Sent c "warning" (message_obj "Could not fetch blueprint state from API")],
        None)) ∧
    (∀ c R res,
       advance c R (k (Resolved res)) =
       (R,
        if truthy (data res) && truthy (field (data res) "data")
        then [Sent c "blueprint-update" (field (data res) "data")]
        else [],
        None)).
Proof.
  intros Hid. pose proof (names_blueprint_room _ _ _ Hid) as Hroom.
  destruct Hid as (Hauthor & Hname & Ha & Hn).
  pose proof (truthy_field_object _ _ Hauthor) as Hpayload.
  eexists. split; [|split].
  - unfold join_room. rewrite missing_eq. cbn [forallb].
    rewrite Hpayload, Hauthor, Hname. cbn [andb negb].
    rewrite !prop_truthy by done. unfold mbind, Prog_bind. cbn [bind].
    rewrite Hroom. unfold fetchBlueprint, encodeURIComponent. rewrite Ha, Hn.
    cbn. reflexivity.
  - intros c R err. reflexivity.
  - intros c R res. cbn.
    destruct (truthy (data res)) eqn:E1; cbn; [|done].
    destruct (truthy (field (data res) "data")) eqn:E2; cbn; [|done].
    by rewrite E2.
Qed.

Lemma join_room_invalid (payload : JsVal) (c : SocketId) (R : Registry.t) :
  join_fields_present payload = false →
  advance c R (join_room payload) =
  (R, [Sent c "error" (message_obj "join-room: missing author or name")], None).
Proof.
  unfold join_fields_present. intros Hmissing. unfold join_room.
  rewrite missing_eq. cbn [forallb]. by rewrite andb_true_r, andb_assoc, Hmissing.
Qed.

Lemma join_room_unprintable (payload : JsVal) (c : SocketId) (R : Registry.t) :
  join_fields_present payload = true →
  roomName (field payload "author") (field payload "name") = None →
  advance c R (join_room payload) =
  (R, [Sent c "error" (message_obj "Internal error on join-room")], None).
Proof.
  unfold join_fields_present. intros Hpresent Hroom. unfold join_room.
  rewrite missing_eq. cbn [forallb]. rewrite andb_true_r, andb_assoc, Hpresent.
  apply andb_prop in Hpresent as [[Hpayload _]%andb_prop _].
  cbn [negb]. rewrite !prop_truthy by done. unfold mbind, Prog_bind. cbn [bind].
  by rewrite Hroom.
Qed.

Lemma draw_event_invalid (payload : JsVal) (ack : AckArg) (c : SocketId)
    (R : Registry.t) :
  draw_fields_present payload = false →
  advance c R (draw_event payload ack) =
  (R,
   acks c ack (ack_failure "draw-event: missing author, name or point") ++
   [Sent c "error" (message_obj "draw-event: missing author, name or point")],
   None).
Proof.
  unfold draw_fields_present. intros Hmissing. unfold draw_event.
  rewrite missing_eq. cbn [forallb]. rewrite andb_true_r, !andb_assoc, Hmissing.
  by destruct ack.
Qed.

Lemma draw_event_unprintable (payload : JsVal) (ack : AckArg) (c : SocketId)
    (R : Registry.t) :
  draw_fields_present payload = true →
  roomName (field payload "author") (field payload "name") = None →
  advance c R (draw_event payload ack) =
  (R,
   acks c ack (ack_failure "Internal server error") ++
   [Sent c "error" (message_obj "Internal server error handling draw-event")],
   None).
Proof.
  unfold draw_fields_present. intros Hpresent Hroom. unfold draw_event.
  rewrite missing_eq. cbn [forallb]. rewrite andb_true_r, !andb_assoc, Hpresent.
  apply andb_prop in Hpresent as [[[Hpayload _]%andb_prop _]%andb_prop _].
  cbn [negb]. rewrite !prop_truthy by done. unfold mbind, Prog_bind. cbn [bind].
  rewrite Hroom. by destruct ack.
Qed.

(** ** More on [join-room] *)

(** X1: a [join-room] whose payload is absent or lacks a truthy [author] or
    [name] is answered with one ['error'] event to the sender and nothing
    else: the connection joins no room and no request is sent. *)
Theorem join_room_rejects_missing_fields (g : Gateway) (c : SocketId) (payload : JsVal) :
  join_fields_present payload = false →
  step g (OnJoinRoom c payload) =
  (finished (next_task g) (accepted g),
   [Sent c "error" (message_obj "join-room: missing author or name")]).
Proof.
  intros Hmissing. cbn [step].
  by rewrite (start_finished g c _ _ _ (join_room_invalid payload c _ Hmissing)).
Qed.

(** X2: after a valid [join-room], whatever else happens meanwhile, when the
    GET succeeds the joiner alone gets the document, in one
    ['blueprint-update'] sent to it and not broadcast, if [fetchBlueprint]
    found one; if there is none it gets nothing at all.  No room changes. *)
Theorem join_room_initial_state (g : Gateway) (c : SocketId) (payload : JsVal)
    (a n : string) (mid : list Input) (res : Response) :
  names_blueprint payload a n →
  others (next_task g) mid →
  let t := next_task g in
  let g1 := (run g (OnJoinRoom c payload :: mid)).1 in
  step g1 (Settled t (Resolved res)) =
    (finished t g1,
     match (execute (fetchBlueprint (field payload "author") (field payload "name"))
              [Resolved res]).2 with
     | Returned JNull => []
     | Returned doc => [Sent c "blueprint-update" doc]
     | _ => []
     end).
Proof.
  intros Hid Hmid. cbv zeta.
  destruct (join_room_stages payload a n Hid) as (k & Hshape & _ & Hres).
  assert (parked (run g (OnJoinRoom c payload :: mid)).1 (next_task g) c
            (Get (blueprint_url a n)) k) as Hp.
  { rewrite run_cons. cbn [step fst]. unfold start. rewrite Hshape. cbn.
    apply run_keeps_parked; [done| |cbn; lia].
    unfold parked; cbn. by rewrite lookup_insert_eq. }
  rewrite (settle_finished _ _ _ _ _ _ _ _ Hp (Hres c _ res)).
  destruct Hid as (_ & _ & Ha & Hn).
  destruct (fetchBlueprint_settles _ _ a n Ha Hn) as [-> _]. cbn [snd].
  destruct (truthy (data res) && truthy (field (data res) "data")) eqn:E; [|done].
  apply andb_prop in E as [_ E].
  by destruct (field (data res) "data").
Qed.

(** X3: when [author] and [name] are present but one of them is an object
    that cannot be turned into a string, building the room name throws and
    the outer [catch] answers: a [join-room] gets the ['error'] "Internal
    error on join-room" and joins nothing; a [draw-event] gets the
    acknowledgment "Internal server error" and the matching ['error']; no
    request is sent in either case. *)
Theorem unprintable_identity_is_internal_error (g : Gateway) (c : SocketId)
    (payload : JsVal) (ack : AckArg) :
  roomName (field payload "author") (field payload "name") = None →
  (join_fields_present payload = true →
   step g (OnJoinRoom c payload) =
   (finished (next_task g) (accepted g),
    [Sent c "error" (message_obj "Internal error on join-room")])) ∧
  (draw_fields_present payload = true →
   step g (OnDrawEvent c payload ack) =
   (finished (next_task g) (accepted g),
    acks c ack (ack_failure "Internal server error") ++
    [Sent c "error" (message_obj "Internal server error handling draw-event")])).
Proof.
  intros Hroom. split; intros Hpresent; cbn [step].
  - by rewrite (start_finished g c _ _ _ (join_room_unprintable payload c _ Hpresent Hroom)).
  - by rewrite (start_finished g c _ _ _
                  (draw_event_unprintable payload ack c _ Hpresent Hroom)).
Qed.

(** X11: whatever its payload and however its GET settles, a [join-room]
    only ever talks to the connection that sent it and to the persistence
    service: it never broadcasts, never raises an unhandled exception, and
    sends at most one request. *)
Theorem join_room_is_private (g : Gateway) (c : SocketId) (payload : JsVal)
    (o : Outcome) :
  let out := (run g [OnJoinRoom c payload; Settled (next_task g) o]).2 in
  Forall (private_to c) out ∧ (List.length (List.filter is_request out) ≤ 1)%nat.
Proof.
  cbv zeta. rewrite run_two.
  destruct (join_fields_present payload) eqn:Hpresent.
  - destruct (roomName (field payload "author") (field payload "name"))
      as [room|] eqn:Hroom.
    + pose proof Hpresent as [[_ Hauthor]%andb_prop Hname]%andb_prop.
      destruct (printable_names payload room Hauthor Hname Hroom) as (a & n & Hid & _).
      destruct (join_room_stages payload a n Hid) as (k & Hshape & Hfail & Hres).
      assert (step g (OnJoinRoom c payload) =
              (waiting (next_task g) c (Get (blueprint_url a n)) k
                 (mkGateway (Registry.join (room_key a n) c (registry g)) (pending g)
                    (S (next_task g))),
               [Requested (next_task g) (Get (blueprint_url a n))])) as ->.
      { cbn [step]. unfold start. by rewrite Hshape. }
      cbn [fst snd]. destruct o as [res|err].
      * erewrite settle_finished;
          [|unfold parked; cbn; apply lookup_insert_eq|apply Hres].
        cbn [snd].
        destruct (truthy (data res) && truthy (field (data res) "data"));
          (split; [by repeat constructor|cbn; lia]).
      * erewrite settle_finished;
          [|unfold parked; cbn; apply lookup_insert_eq|apply Hfail].
        split; [by repeat constructor|cbn; lia].
    + assert (step g (OnJoinRoom c payload) =
              (finished (next_task g) (accepted g),
               [Sent c "error" (message_obj "Internal error on join-room")])) as ->.
      { cbn [step].
        by rewrite (start_finished g c _ _ _
                      (join_room_unprintable payload c _ Hpresent Hroom)). }
      cbn [fst snd]. rewrite settle_gone by (cbn; apply lookup_delete_eq).
      split; [by repeat constructor|cbn; lia].
  - assert (step g (OnJoinRoom c payload) =
            (finished (next_task g) (accepted g),
             [Sent c "error" (message_obj "join-room: missing author or name")])) as ->.
    { cbn [step].
      by rewrite (start_finished g c _ _ _ (join_room_invalid payload c _ Hpresent)). }
    cbn [fst snd]. rewrite settle_gone by (cbn; apply lookup_delete_eq).
    split; [by repeat constructor|cbn; lia].
Qed.

(** ** [leave-room] *)

Lemma leave_room_is_silent_registry (g : Gateway) (c : SocketId) (payload : JsVal) :
  registry (step g (OnLeaveRoom c payload)).1 =
  match requested_room payload with
  | Some room => Registry.leave room c (registry g)
  | None => registry g
  end.
Proof.
  cbn [step]. erewrite start_finished; [reflexivity|].
  rewrite leave_room_cases. by destruct (requested_room payload).
Qed.

(** X4: a [leave-room] never answers: whatever the payload, it emits no
    event, calls no acknowledgment and sends no request.  With [author] and
    [name] present it takes the connection out of that one room; otherwise
    (fields missing, or a room name that cannot be built) it changes
    nothing. *)
Theorem leave_room_is_silent (g : Gateway) (c : SocketId) (payload : JsVal) :
  step g (OnLeaveRoom c payload) =
  (mkGateway
     match requested_room payload with
     | Some room => Registry.leave room c (registry g)
     | None => registry g
     end
     (delete (next_task g) (pending g)) (S (next_task g)),
   []).
Proof.
  cbn [step]. apply start_finished. rewrite leave_room_cases.
  by destruct (requested_room payload).
Qed.

(** X5: after joining a blueprint's room and then leaving it with the same
    payload the connection is not in that room, and every other membership
    (of other connections, and of this one in other rooms) is what it was
    before the join. *)
Theorem join_then_leave_restores_membership (g : Gateway) (c : SocketId)
    (payload : JsVal) (a n : string) :
  names_blueprint payload a n →
  let g2 := (run g [OnJoinRoom c payload; OnLeaveRoom c payload]).1 in
  (c ∉ Registry.members (registry g2) (room_key a n)) ∧
  (∀ c' room, (c' ≠ c ∨ room ≠ room_key a n) →
     (c' ∈ Registry.members (registry g2) room ↔
      c' ∈ Registry.members (registry g) room)).
Proof.
  intros Hid. cbv zeta. rewrite run_two. cbn [fst].
  rewrite leave_room_is_silent_registry.
  destruct (join_room_stages payload a n Hid) as (k & Hshape & _).
  assert (registry (step g (OnJoinRoom c payload)).1 =
          Registry.join (room_key a n) c (registry g)) as ->.
  { cbn [step]. unfold start. by rewrite Hshape. }
  rewrite (requested_room_names _ _ _ Hid). split.
  - rewrite registry_members_leave, decide_True by done. set_solver.
  - intros c' room Hother. rewrite registry_members_leave.
    destruct (decide (room_key a n = room)) as [<-|Hne].
    + rewrite registry_members_join, decide_True by done.
      destruct Hother as [Hc|]; [|done]. set_solver.
    + by rewrite registry_members_join, decide_False.
Qed.


(** ** No unhandled exception *)

Lemma catches_all_try_catch {A : Type} (p : Prog A) (h : JsError → Prog A) :
  (∀ err, catches_all (h err)) → catches_all (try_catch p h).
Proof.
  intros Hh. induction p as [a|err|act next IH|req resume IH]; cbn; [done| |done|].
  - apply Hh.
  - intros o. apply IH.
Qed.

Lemma catches_all_join_room (payload : JsVal) : catches_all (join_room payload).
Proof. by apply catches_all_try_catch. Qed.

Lemma catches_all_draw_event (payload : JsVal) (ack : AckArg) :
  catches_all (draw_event payload ack).
Proof. apply catches_all_try_catch. intros err. by destruct ack. Qed.

Lemma catches_all_leave_room (payload : JsVal) : catches_all (leave_room payload).
Proof. by apply catches_all_try_catch. Qed.

Lemma advance_catches_all (c : SocketId) (R : Registry.t) (p : Prog unit) :
  catches_all p →
  Forall (λ e, is_unhandled e = false) (advance c R p).1.2 ∧
  (∀ req k, (advance c R p).2 = Some (req, k) → ∀ o, catches_all (k o)).
Proof.
  revert R. induction p as [[]|err|act next IH|req resume IH]; intros R Hp.
  - by split.
  - destruct Hp.
  - cbn [advance]. destruct (do_action c R act) as [R1 out1] eqn:Hact.
    destruct (IH R1 Hp) as [IH1 IH2].
    destruct (advance c R1 next) as [[R2 out2] rest]. cbn [fst snd] in *.
    split; [|done]. apply Forall_app. split; [|done].
    destruct act; injection Hact as <- <-; by repeat constructor.
  - split; [by constructor|]. intros req' k' [= _ <-]. apply Hp.
Qed.

Lemma schedule_guarded (id : nat) (c : SocketId) (p : Prog unit) (g : Gateway) :
  guarded g → catches_all p →
  guarded (schedule id c p g).1 ∧
  Forall (λ e, is_unhandled e = false) (schedule id c p g).2.
Proof.
  intros Hg Hp. destruct (advance_catches_all c (registry g) p Hp) as [Hout Hrest].
  unfold schedule. destruct (advance c (registry g) p) as [[R out] [[req k]|]];
    cbn [fst snd] in *.
  - split.
    + intros t task Ht. cbn in Ht.
      apply lookup_insert_Some in Ht as [[_ <-]|[_ Ht]]; [by apply (Hrest req k)|].
      by apply (Hg t task).
    + apply Forall_app. split; [done|]. by repeat constructor.
  - split; [|done]. intros t task Ht. cbn in Ht.
    apply lookup_delete_Some in Ht as [_ Ht]. by apply (Hg t task).
Qed.

Lemma step_guarded (g : Gateway) (i : Input) :
  guarded g →
  guarded (step g i).1 ∧ Forall (λ e, is_unhandled e = false) (step g i).2.
Proof.
  intros Hg.
  destruct i as [c payload|c payload ack|c payload|c|t o]; cbn [step]; unfold start.
  - apply schedule_guarded; [done|apply catches_all_join_room].
  - apply schedule_guarded; [done|apply catches_all_draw_event].
  - apply schedule_guarded; [done|apply catches_all_leave_room].
  - by apply schedule_guarded.
  - destruct (pending g !! t) as [task|] eqn:Ht; [|by split].
    apply schedule_guarded; [done|]. by apply (Hg t task).
Qed.

(** X7: no handler ever lets an exception escape.  Whatever the clients
    send (any payloads, in any order) and however the persistence service
    answers or fails, a gateway started empty never has an unhandled
    rejection: every exception is turned into an event for the client. *)
Theorem no_unhandled_rejection (inputs : list Input) :
  Forall (λ e, is_unhandled e = false) (run (initial : Gateway) inputs).2.
Proof.
  assert (∀ g : Gateway, guarded g →
            Forall (λ e, is_unhandled e = false) (run g inputs).2) as Hrun.
  { induction inputs as [|i inputs IH]; intros g Hg; [by constructor|].
    rewrite run_cons. cbn [snd]. destruct (step_guarded g i Hg) as [Hg1 Hout].
    apply Forall_app. split; [done|]. by apply IH. }
  apply Hrun. intros t task Ht. cbn in Ht. by rewrite lookup_empty in Ht.
Qed.

(** ** Every [draw-event], from start to end *)

(** The events of a [draw-event] whose two requests settle as [o1] and
    [o2], for every payload: it is turned down, or it fails on the room
    name, or it goes through the stages. *)
Lemma draw_event_run (g : Gateway) (c : SocketId) (payload : JsVal) (ack : AckArg)
    (o1 o2 : Outcome) :
  let t := next_task g in
  let result := run g [OnDrawEvent c payload ack; Settled t o1; Settled t o2] in
  registry result.1 = registry g ∧
  pending result.1 !! t = None ∧
  ((∃ msg1 msg2,
      result.2 = acks c ack (ack_failure msg1) ++ [Sent c "error" (message_obj msg2)]) ∨
   (∃ a n,
      names_blueprint payload a n ∧
      let put := Requested t (Put (points_url a n) (field payload "point")) in
      let get := Requested t (Get (blueprint_url a n)) in
      match o1, o2 with
      | Rejected _, _ =>
          ∃ msg1 msg2,
            result.2 = [put] ++ acks c ack (ack_failure msg1) ++
                       [Sent c "error" (message_obj msg2)]
      | Resolved _, Rejected _ =>
          ∃ msg,
            result.2 = [put; get] ++ acks c ack (ack_failure msg) ++
                       [Sent c "warning" (message_obj msg)]
      | Resolved _, Resolved res =>
          if truthy (data res) && truthy (field (data res) "data") then
            result.2 = [put; get] ++
                       [Broadcast (room_key a n) "blueprint-update"
                          (field (data res) "data")
                          (Registry.members (registry g) (room_key a n))] ++
                       acks c ack ack_success
          else
            ∃ msg,
              result.2 = [put; get] ++ acks c ack (ack_failure msg) ++
                         [Sent c "warning" (message_obj msg)]
      end)).
Proof.
  cbv zeta. rewrite run_three. cbn [fst snd].
  assert (∀ out, advance c (registry g) (draw_event payload ack) = (registry g, out, None) →
            registry (step (step (step g (OnDrawEvent c payload ack)).1
                              (Settled (next_task g) o1)).1
                        (Settled (next_task g) o2)).1 = registry g ∧
            pending (step (step (step g (OnDrawEvent c payload ack)).1
                             (Settled (next_task g) o1)).1
                       (Settled (next_task g) o2)).1 !! next_task g = None ∧
            (step g (OnDrawEvent c payload ack)).2 ++
            (step (step g (OnDrawEvent c payload ack)).1 (Settled (next_task g) o1)).2 ++
            (step (step (step g (OnDrawEvent c payload ack)).1
                     (Settled (next_task g) o1)).1 (Settled (next_task g) o2)).2 = out)
    as Hdone.
  { intros out Hadv.
    assert (step g (OnDrawEvent c payload ack) =
            (finished (next_task g) (accepted g), out)) as ->
      by (cbn [step]; by rewrite (start_finished g c _ _ _ Hadv)).
    assert (∀ o, step (finished (next_task g) (accepted g)) (Settled (next_task g) o) =
                 (finished (next_task g) (accepted g), [])) as Hgone
      by (intros o; apply settle_gone; cbn; apply lookup_delete_eq).
    cbn [fst snd]. rewrite Hgone. cbn [fst snd]. rewrite Hgone. cbn [fst snd].
    rewrite !app_nil_r. split; [done|]. split; [|done]. cbn. apply lookup_delete_eq. }
  destruct (draw_fields_present payload) eqn:Hpresent.
  2:{ destruct (Hdone _ (draw_event_invalid payload ack c _ Hpresent)) as (-> & -> & ->).
      split; [done|]. split; [done|]. left. by eexists _, _. }
  destruct (roomName (field payload "author") (field payload "name"))
    as [room|] eqn:Hroom.
  2:{ destruct (Hdone _ (draw_event_unprintable payload ack c _ Hpresent Hroom))
        as (-> & -> & ->).
      split; [done|]. split; [done|]. left. by eexists _, _. }
  clear Hdone.
  pose proof Hpresent as [[[_ Hauthor]%andb_prop Hname]%andb_prop Hpoint]%andb_prop.
  destruct (printable_names payload room Hauthor Hname Hroom) as (a & n & Hid & ->).
  destruct (draw_event_stages payload ack a n Hid Hpoint)
    as (k1 & k2 & Hshape & Hk1 & Hfail1 & Hfail2 & Hres).
  assert (step g (OnDrawEvent c payload ack) =
          (waiting (next_task g) c (Put (points_url a n) (field payload "point")) k1
             (accepted g),
           [Requested (next_task g) (Put (points_url a n) (field payload "point"))])) as ->
    by (cbn [step]; by rewrite (start_suspended _ _ _ _ _ Hshape)).
  cbn [fst snd].
  assert (∀ (g' : Gateway) (req : Request) (k : Outcome → Prog unit),
            parked (waiting (next_task g) c req k g') (next_task g) c req k)
    as Hparked by (intros; unfold parked, waiting; cbn; apply lookup_insert_eq).
  destruct o1 as [r|err1].
  - rewrite (settle_suspended _ _ _ _ _ _ _ _ (Hparked _ _ _) (Hk1 r)). cbn [fst snd].
    destruct o2 as [res|err2].
    + rewrite (settle_finished _ _ _ _ _ _ _ _ (Hparked _ _ _) (Hres c _ res)).
      cbn [fst snd registry waiting accepted].
      split; [done|]. split; [cbn; apply lookup_delete_eq|].
      right. exists a, n. split; [done|]. cbv zeta.
      destruct (truthy (data res) && truthy (field (data res) "data")); [done|].
      by eexists.
    + rewrite (settle_finished _ _ _ _ _ _ _ _ (Hparked _ _ _) (Hfail2 c _ err2)).
      cbn [fst snd registry waiting accepted].
      split; [done|]. split; [cbn; apply lookup_delete_eq|].
      right. exists a, n. split; [done|]. cbv zeta. by eexists.
  - rewrite (settle_finished _ _ _ _ _ _ _ _ (Hparked _ _ _) (Hfail1 c _ err1)).
    cbn [fst snd]. rewrite settle_gone by (cbn; apply lookup_delete_eq).
    cbn [fst snd registry waiting accepted]. rewrite app_nil_r.
    split; [done|]. split; [cbn; apply lookup_delete_eq|].
    right. exists a, n. split; [done|]. cbv zeta.
    destruct (to_string (persist_failure_reason err1)); by eexists _, _.
Qed.

(** X8: every [draw-event] comes to an end and answers its acknowledgment
    exactly once.  Whatever the payload and however the PUT and the GET
    settle, when [ack] is a function it is called once, for the sender, and
    never a second time (not even when the outer [catch] takes over); when
    it is not a function it is never called. *)
Theorem draw_event_acknowledged_once (g : Gateway) (c : SocketId) (payload : JsVal)
    (ack : AckArg) (o1 o2 : Outcome) :
  let t := next_task g in
  let result := run g [OnDrawEvent c payload ack; Settled t o1; Settled t o2] in
  pending result.1 !! t = None ∧
  match ack with
  | AckFunction => ∃ arg, List.filter is_ack result.2 = [Acked c arg]
  | NotAFunction => List.filter is_ack result.2 = []
  end.
Proof.
  cbv zeta. destruct (draw_event_run g c payload ack o1 o2) as (_ & Hdone & Hout).
  split; [done|].
  destruct Hout as [(msg1 & msg2 & ->)|(a & n & _ & Hout)].
  { destruct ack; cbn; eauto. }
  cbv zeta in Hout. destruct o1 as [r|err1].
  - destruct o2 as [res|err2].
    + destruct (truthy (data res) && truthy (field (data res) "data")).
      * rewrite Hout. destruct ack; cbn; eauto.
      * destruct Hout as (msg & ->). destruct ack; cbn; eauto.
    + destruct Hout as (msg & ->). destruct ack; cbn; eauto.
  - destruct Hout as (msg1 & msg2 & ->). destruct ack; cbn; eauto.
Qed.


(** X10: a [draw-event] never changes who is in which room, whatever its
    payload and however its requests settle; and its broadcast goes to the
    members of the blueprint's room only, so a sender that has not joined
    that room gets its acknowledgment but not the ['blueprint-update']. *)
Theorem draw_event_keeps_rooms (g : Gateway) (c : SocketId) (payload : JsVal)
    (ack : AckArg) (o1 o2 : Outcome) :
  let t := next_task g in
  let result := run g [OnDrawEvent c payload ack; Settled t o1; Settled t o2] in
  registry result.1 = registry g ∧
  (∀ c' e, e ∈ result.2 → reaches c' e →
     ∃ room, roomName (field payload "author") (field payload "name") = Some room ∧
             c' ∈ Registry.members (registry g) room).
Proof.
  cbv zeta. destruct (draw_event_run g c payload ack o1 o2) as (Hreg & _ & Hout).
  split; [done|]. intros c' e Hin Hreach.
  assert (∀ (l : list Event) msg1 msg2,
            e ∈ l ++ acks c ack (ack_failure msg1) ++ [Sent c "error" (message_obj msg2)] →
            Forall (λ e, is_request e = true) l → False) as Herror.
  { intros l msg1 msg2 [Hl|[Ha| ->%list_elem_of_singleton]%elem_of_app]%elem_of_app Hreq.
    - rewrite Forall_forall in Hreq. apply Hreq in Hl. by destruct e.
    - destruct ack; [apply list_elem_of_singleton in Ha as ->; done|by apply elem_of_nil in Ha].
    - done. }
  assert (∀ (l : list Event) msg,
            e ∈ l ++ acks c ack (ack_failure msg) ++ [Sent c "warning" (message_obj msg)] →
            Forall (λ e, is_request e = true) l → False) as Hwarning.
  { intros l msg [Hl|[Ha| ->%list_elem_of_singleton]%elem_of_app]%elem_of_app Hreq.
    - rewrite Forall_forall in Hreq. apply Hreq in Hl. by destruct e.
    - destruct ack; [apply list_elem_of_singleton in Ha as ->; done|by apply elem_of_nil in Ha].
    - done. }
  destruct Hout as [(msg1 & msg2 & Hout)|(a & n & Hid & Hout)].
  { rewrite Hout in Hin. destruct (Herror [] msg1 msg2 Hin). constructor. }
  cbv zeta in Hout. exists (room_key a n). split; [by apply names_blueprint_room|].
  destruct o1 as [r|err1].
  - destruct o2 as [res|err2].
    + destruct (truthy (data res) && truthy (field (data res) "data")).
      * rewrite Hout in Hin.
        apply elem_of_app in Hin as [Hin|Hin].
        { apply list_elem_of_In in Hin. destruct Hin as [<-|[<-|[]]]; done. }
        apply elem_of_app in Hin as [->%list_elem_of_singleton|Hin]; [done|].
        destruct ack; [apply list_elem_of_singleton in Hin as ->; done|
                       by apply elem_of_nil in Hin].
      * destruct Hout as (msg & Hout). rewrite Hout in Hin.
        destruct (Hwarning _ msg Hin). by repeat constructor.
    + destruct Hout as (msg & Hout). rewrite Hout in Hin.
      destruct (Hwarning _ msg Hin). by repeat constructor.
  - destruct Hout as (msg1 & msg2 & Hout). rewrite Hout in Hin.
    destruct (Herror _ msg1 msg2 Hin). by repeat constructor.
Qed.

(** ** More on [fetchBlueprint] *)

(** X14: [fetchBlueprint] answers a successful GET with [null] or with a
    truthy value, never with [undefined], [0], [false] or [""], whatever the
    body looks like (even a body that is not an object); so the tests
    [if (bp)] and [if (!updatedBlueprint)] of its callers tell "no document"
    from "document" and nothing else.  It throws only when the request fails
    or the URL cannot be built. *)
Theorem fetchBlueprint_null_or_truthy (author name : JsVal) (res : Response) :
  match (execute (fetchBlueprint author name) [Resolved res]).2 with
  | Returned v => v = JNull ∨ truthy v = true
  | Thrown _ => to_string author = None ∨ to_string name = None
  | Suspended => False
  end.
Proof.
  unfold fetchBlueprint, encodeURIComponent.
  destruct (to_string author) as [a|]; [|cbn; by left].
  destruct (to_string name) as [n|]; [|cbn; by right].
  cbn. destruct (truthy (data res)); cbn; [|by left].
  destruct (truthy (field (data res) "data")) eqn:E; cbn; [by right|by left].
Qed.

(** ** The URLs of the two requests *)

Lemma percent_decode_escaped (c : ascii) (rest : string) :
  percent_decode
    (String "%" (String (hex_digit (N_of_ascii c / 16))
       (String (hex_digit (N_of_ascii c mod 16)) rest))) =
  String c <$> percent_decode rest.
Proof. by destruct c as [[] [] [] [] [] [] [] []]. Qed.

Lemma percent_decode_plain (c : ascii) (rest : string) :
  uri_unreserved c = true →
  percent_decode (String c rest) = String c <$> percent_decode rest.
Proof.
  destruct c as [[] [] [] [] [] [] [] []]; intros H; try reflexivity.
  by vm_compute in H.
Qed.

(** What [encodeURIComponent] produces can be decoded again. *)
Lemma percent_decode_encode (s : string) : percent_decode (percent_encode s) = Some s.
Proof.
  induction s as [|c s IH]; [done|]. cbn [percent_encode].
  destruct (uri_unreserved c) eqn:Hc.
  - by rewrite percent_decode_plain, IH.
  - by rewrite percent_decode_escaped, IH.
Qed.

Lemma percent_encode_inj (s1 s2 : string) :
  percent_encode s1 = percent_encode s2 → s1 = s2.
Proof.
  intros Heq. apply (f_equal percent_decode) in Heq.
  rewrite !percent_decode_encode in Heq. by injection Heq.
Qed.

Lemma percent_encode_slash (c : ascii) (s : string) :
  occurs "/" (percent_encode (String c s)) = occurs "/" (percent_encode s).
Proof. by destruct c as [[] [] [] [] [] [] [] []]. Qed.

(** What [encodeURIComponent] produces contains no ['/']. *)
Lemma percent_encode_no_slash (s : string) : occurs "/" (percent_encode s) = false.
Proof. induction s as [|c s IH]; [done|]. by rewrite percent_encode_slash. Qed.

Lemma occurs_separator (sep : ascii) (a n : string) :
  occurs sep (a +:+ String sep n) = true.
Proof.
  induction a as [|ch a IH].
  - change (Ascii.eqb sep sep || occurs sep n = true). by rewrite Ascii.eqb_refl.
  - change (Ascii.eqb ch sep || occurs sep (a +:+ String sep n) = true).
    rewrite IH. apply orb_true_r.
Qed.

Lemma separator_splits (sep : ascii) (a1 n1 a2 n2 : string) :
  occurs sep a1 = false → occurs sep a2 = false →
  a1 +:+ String sep n1 = a2 +:+ String sep n2 →
  a1 = a2 ∧ n1 = n2.
Proof.
  revert a2. induction a1 as [|ch1 a1 IH]; intros [|ch2 a2] H1 H2 Heq.
  - change (String sep n1 = String sep n2) in Heq. by injection Heq as ->.
  - change (String sep n1 = String ch2 (a2 +:+ String sep n2)) in Heq.
    injection Heq as -> _. cbn in H2. by rewrite Ascii.eqb_refl in H2.
  - change (String ch1 (a1 +:+ String sep n1) = String sep n2) in Heq.
    injection Heq as -> _. cbn in H1. by rewrite Ascii.eqb_refl in H1.
  - change (String ch1 (a1 +:+ String sep n1) = String ch2 (a2 +:+ String sep n2)) in Heq.
    injection Heq as -> Heq. cbn in H1, H2.
    apply orb_false_elim in H1 as [_ H1]. apply orb_false_elim in H2 as [_ H2].
    by destruct (IH a2 H1 H2 Heq) as [-> ->].
Qed.

Lemma append_prefix_inj (prefix x y : string) : prefix +:+ x = prefix +:+ y → x = y.
Proof.
  induction prefix as [|ch prefix IH]; [done|]. intros Heq.
  change (String ch (prefix +:+ x) = String ch (prefix +:+ y)) in Heq.
  injection Heq as Heq. by apply IH.
Qed.

Lemma blueprint_url_inj (a1 n1 a2 n2 : string) :
  blueprint_url a1 n1 = blueprint_url a2 n2 → a1 = a2 ∧ n1 = n2.
Proof.
  unfold blueprint_url. intros Heq%append_prefix_inj.
  change (percent_encode a1 +:+ String "/" (percent_encode n1) =
          percent_encode a2 +:+ String "/" (percent_encode n2)) in Heq.
  apply separator_splits in Heq as [Ha Hn]; [|apply percent_encode_no_slash..].
  split; by apply percent_encode_inj.
Qed.

Lemma points_url_inj (a1 n1 a2 n2 : string) :
  points_url a1 n1 = points_url a2 n2 → a1 = a2 ∧ n1 = n2.
Proof.
  unfold points_url. intros Heq%append_prefix_inj.
  change (percent_encode a1 +:+ String "/" (percent_encode n1 +:+ String "/" "points") =
          percent_encode a2 +:+ String "/" (percent_encode n2 +:+ String "/" "points"))
    in Heq.
  apply separator_splits in Heq as [Ha Hn]; [|apply percent_encode_no_slash..].
  apply separator_splits in Hn as [Hn _]; [|apply percent_encode_no_slash..].
  split; by apply percent_encode_inj.
Qed.

Lemma persistPoint_request (author name point : JsVal) (req : Request) :
  (execute (persistPoint author name point) []).1 = [inr req] →
  ∃ a n, to_string author = Some a ∧ to_string name = Some n ∧
         req = Put (points_url a n) point.
Proof.
  unfold persistPoint, encodeURIComponent.
  destruct (to_string author) as [a|]; [|done].
  destruct (to_string name) as [n|]; [|done].
  cbn. intros [= <-]. by exists a, n.
Qed.

Lemma fetchBlueprint_request (author name : JsVal) (req : Request) :
  (execute (fetchBlueprint author name) []).1 = [inr req] →
  ∃ a n, to_string author = Some a ∧ to_string name = Some n ∧
         req = Get (blueprint_url a n).
Proof.
  unfold fetchBlueprint, encodeURIComponent.
  destruct (to_string author) as [a|]; [|done].
  destruct (to_string name) as [n|]; [|done].
  cbn. intros [= <-]. by exists a, n.
Qed.

(** X12: the URL of a request tells which blueprint it is for.  Two calls of
    [persistPoint] that PUT to the same URL, and two calls of
    [fetchBlueprint] that GET the same URL, have authors that print alike
    and names that print alike: thanks to [encodeURIComponent] an author or
    a name containing ['/'], ['-'] or ['%'] cannot pass for another blueprint
    (room names give no such guarantee). *)
Theorem request_url_identifies_blueprint (author1 name1 author2 name2 : JsVal) :
  (∀ point1 point2 url,
     (execute (persistPoint author1 name1 point1) []).1 = [inr (Put url point1)] →
     (execute (persistPoint author2 name2 point2) []).1 = [inr (Put url point2)] →
     to_string author1 = to_string author2 ∧ to_string name1 = to_string name2) ∧
  (∀ url,
     (execute (fetchBlueprint author1 name1) []).1 = [inr (Get url)] →
     (execute (fetchBlueprint author2 name2) []).1 = [inr (Get url)] →
     to_string author1 = to_string author2 ∧ to_string name1 = to_string name2).
Proof.
  pose (url_of := λ req : Request, match req with Put u _ | Get u => u end).
  split.
  - intros point1 point2 url H1 H2.
    apply persistPoint_request in H1 as (a1 & n1 & -> & -> & H1).
    apply persistPoint_request in H2 as (a2 & n2 & -> & -> & H2).
    apply (f_equal url_of) in H1, H2. cbv beta iota delta [url_of] in H1, H2.
    rewrite H1 in H2. by apply points_url_inj in H2 as [-> ->].
  - intros url H1 H2.
    apply fetchBlueprint_request in H1 as (a1 & n1 & -> & -> & H1).
    apply fetchBlueprint_request in H2 as (a2 & n2 & -> & -> & H2).
    apply (f_equal url_of) in H1, H2. cbv beta iota delta [url_of] in H1, H2.
    rewrite H1 in H2. by apply blueprint_url_inj in H2 as [-> ->].
Qed.

(** ** Rooms shared by two blueprints *)

(** X13: the room, not the blueprint, decides who gets an update.  When the
    names of two blueprints give the same room name, a connection that
    joined for the second one is sent the ['blueprint-update'] of a
    [draw-event] on the first one: the document that the handler fetched
    from the first blueprint's URL. *)
Theorem same_room_name_shares_updates (g : Gateway) (joiner sender : SocketId)
    (join_payload draw_payload : JsVal) (ack : AckArg) (a1 n1 a2 n2 : string)
    (r res : Response) (doc : JsVal) :
  sound g →
  names_blueprint join_payload a2 n2 →
  names_blueprint draw_payload a1 n1 →
  truthy (field draw_payload "point") = true →
  room_key a1 n1 = room_key a2 n2 →
  (execute (fetchBlueprint (field draw_payload "author") (field draw_payload "name"))
     [Resolved res]) = ([inr (Get (blueprint_url a1 n1))], Returned doc) →
  doc ≠ JNull →
  let t := S (next_task g) in
  let g2 := (run g [OnJoinRoom joiner join_payload;
                    OnDrawEvent sender draw_payload ack;
                    Settled t (Resolved r)]).1 in
  ∃ to,
    (step g2 (Settled t (Resolved res))).2 =
      [Broadcast (room_key a2 n2) "blueprint-update" doc to] ++
      acks sender ack ack_success ∧
    joiner ∈ to.
Proof.
  intros Hg Hjoin Hdraw Hpoint Hroom Hdoc Hpresent. cbv zeta.
  destruct (step_sound g (OnJoinRoom joiner join_payload) Hg) as (Hg0 & Hreg0 & _).
  set (g0 := (step g (OnJoinRoom joiner join_payload)).1) in *.
  assert (next_task g0 = S (next_task g)) as Hnext.
  { subst g0. destruct (join_room_stages join_payload a2 n2 Hjoin) as (k & Hshape & _).
    cbn [step]. unfold start. by rewrite Hshape. }
  destruct (draw_event_stages draw_payload ack a1 n1 Hdraw Hpoint)
    as (k1 & k2 & Hshape & Hk1 & _ & _ & Hres).
  assert (others (next_task g0) ([] : list Input)) as Hnone
    by exact (List.Forall_nil _).
  pose proof (draw_event_fetching g0 sender draw_payload ack a1 n1 [] [] r k1 k2
                Hshape Hk1 Hnone Hnone) as Hp.
  cbv zeta in Hp. rewrite Hnext in Hp. cbn [app] in Hp.
  rewrite run_cons. cbn [fst]. fold g0.
  destruct (run_sound g0 [OnDrawEvent sender draw_payload ack;
                          Settled (S (next_task g)) (Resolved r)] Hg0) as [_ Hreg].
  cbn [foldl registry_after] in Hreg.
  rewrite (settle_finished _ _ _ _ _ _ _ _ Hp (Hres sender _ res)). cbn [snd].
  assert (truthy (data res) && truthy (field (data res) "data") = true ∧
          field (data res) "data" = doc) as [-> Hret].
  { destruct Hdraw as (_ & _ & Ha & Hn).
    apply (fetchBlueprint_present _ _ a1 n1 res doc Ha Hn); [|done].
    by rewrite Hdoc. }
  rewrite Hret, Hroom. eexists. split; [reflexivity|].
  unfold Registry.broadcast. rewrite Hreg, Hreg0. cbn [registry_after].
  rewrite (requested_room_names _ _ _ Hjoin), registry_members_join, decide_True by done.
  set_solver.
Qed.

(** ** Membership over time *)

Lemma subscription_without_join (c : SocketId) (room : string) (later : list Input) :
  Forall (λ i, ¬ joins c i) later →
  foldl (subscription c room) false later = false.
Proof.
  induction later as [|i later IH]; [done|].
  intros [Hi Hlater]%Forall_cons. cbn [foldl].
  assert (subscription c room false i = false) as ->; [|by apply IH].
  destruct i as [c' payload|c' payload ack|c' payload|c'|t o]; cbn in Hi |- *;
    try done; case_bool_decide; try done. destruct Hi. naive_solver.
Qed.

(** X15: membership is in the member's own hands.  In a gateway started
    empty, after any history: a connection that is in a room stays in it
    through everything that is not its own [leave-room] or disconnect, and a
    connection that is not in a room stays out through everything that is
    not its own [join-room].  Other clients' requests, [draw-event]s and
    late replies of the persistence service never evict or enrol anyone. *)
Theorem membership_in_own_hands (inputs later : list Input) (c : SocketId)
    (room : string) :
  let before := registry (run (initial : Gateway) inputs).1 in
  let after := registry (run (initial : Gateway) (inputs ++ later)).1 in
  (Forall (λ i, ¬ departs c i) later →
   c ∈ Registry.members before room → c ∈ Registry.members after room) ∧
  (Forall (λ i, ¬ joins c i) later →
   c ∉ Registry.members before room → c ∉ Registry.members after room).
Proof.
  cbv zeta. rewrite run_app. cbn [fst].
  destruct (run_sound initial inputs sound_initial) as [Hg _]. split.
  - intros Hlater Hmember. by apply stays_member.
  - intros Hlater Hout.
    rewrite (membership_invariant _ later c room false Hg); [|naive_solver].
    by rewrite subscription_without_join.
Qed.

(** ** The reason given when the PUT fails *)

(** X16: when the PUT of a valid [draw-event] fails, the sender is told why,
    in the acknowledgment and in the ['error'] event alike: with the message
    of the service's own error reply when that reply carries a non-empty
    string [message], and with the message of the thrown error (a timeout, a
    refused connection) when there is no reply or the reply has no usable
    [message]. *)
Theorem persist_failure_message (g : Gateway) (c : SocketId) (payload : JsVal)
    (ack : AckArg) (a n : string) (mid : list Input) (err : JsError) :
  names_blueprint payload a n →
  truthy (field payload "point") = true →
  others (next_task g) mid →
  let t := next_task g in
  let g1 := (run g (OnDrawEvent c payload ack :: mid)).1 in
  let told msg :=
    step g1 (Settled t (Rejected err)) =
      (finished t g1,
       acks c ack (ack_failure ("Failed to persist point: " +:+ msg)) ++
       [Sent c "error" (message_obj ("Failed to persist point: " +:+ msg))]) in
  (∀ res m, response err = Some res → field (data res) "message" = JStr m → m ≠ "" →
     told m) ∧
  (response err = None → told (message err)) ∧
  (∀ res, response err = Some res → truthy (field (data res) "message") = false →
     told (message err)).
Proof.
  intros Hid Hpoint Hmid. cbv zeta.
  destruct (draw_event_stages payload ack a n Hid Hpoint)
    as (k1 & k2 & Hshape & _ & Hfail & _).
  destruct (draw_event_persisting g c payload ack a n mid k1 Hshape Hmid) as [Hp _].
  rewrite (settle_finished _ _ _ _ _ _ _ _ Hp (Hfail c _ err)).
  unfold persist_failure_reason. split; [|split].
  - intros res m -> Hm Hne.
    assert (opt_field (data res) "message" = JStr m) as ->
      by (destruct (data res); try done; by cbn in Hm).
    cbn. by rewrite (proj2 (String.eqb_neq m "") Hne).
  - by intros ->.
  - intros res -> Hm.
    assert (truthy (opt_field (data res) "message") = false) as ->
      by (by destruct (data res)).
    done.
Qed.

End Properties.

(** ** The scenario of the specification, run *)

Section Scenario.
Import Sample.

Lemma sample_names_blueprint : names_blueprint draw_payload "alice" "plano1".
Proof. by repeat split. Qed.

Lemma sample_join_names_blueprint : names_blueprint join_payload "alice" "plano1".
Proof. by repeat split. Qed.

Lemma sample_others (t : nat) (c : SocketId) :
  others t [OnJoinRoom c join_payload] ∧ others t [OnDisconnect (number:=Z) c].
Proof. split; repeat constructor; discriminate. Qed.

(** C2 as stated fails: the pairs [("a-b", "c")] and [("a", "b-c")] are
    distinct, all four strings are non-empty, and both get the room key
    ["room:a-b-c"]. *)
Lemma roomName_collision :
  ("a-b", "c") ≠ ("a", "b-c") ∧
  roomName (JStr "a-b" : value) (JStr "c") = Some "room:a-b-c" ∧
  roomName (JStr "a" : value) (JStr "b-c") = Some "room:a-b-c".
Proof. by repeat split. Qed.

Lemma roomName_injective_without_hyphen_witness :
  (has_hyphen "alice" = false ∧ has_hyphen "bob" = false) ∧
  roomName (JStr "alice" : value) (JStr "plano-1") = Some "room:alice-plano-1" ∧
  (roomName (JStr "alice" : value) (JStr "plano-1") = roomName (JStr "bob") (JStr "plano-1") →
   "alice" = "bob" ∧ "plano-1" = "plano-1").
Proof.
  split; [by split|].
  apply (roomName_injective_without_hyphen (number:=Z) "alice" "plano-1" "bob" "plano-1").
  left. by split.
Defined.

(** C8 as stated fails: an envelope whose [data] is [0] has a [data] field
    that is neither missing nor [null], and [fetchBlueprint] does not return
    it: it returns [null]. *)
Lemma fetchBlueprint_drops_falsy_data :
  field (data (envelope (JNum 0%Z))) "data" = JNum 0%Z ∧
  execute (fetchBlueprint (JStr "alice") (JStr "plano1")) [Resolved (envelope (JNum 0%Z))] =
    ([inr (Get "/api/v1/blueprints/alice/plano1")], Returned JNull).
Proof. by split. Qed.

Lemma fetchBlueprint_unwraps_envelope_witness :
  execute (fetchBlueprint (JStr "alice") (JStr "plano1")) [Resolved (envelope blueprint)] =
    ([inr (Get "/api/v1/blueprints/alice/plano1")], Returned blueprint) ∧
  execute (fetchBlueprint (JStr "alice") (JStr "plano1")) [Resolved envelope_without_data] =
    ([inr (Get "/api/v1/blueprints/alice/plano1")], Returned JNull) ∧
  execute (fetchBlueprint (JStr "alice") (JStr "plano1")) [Resolved (envelope JNull)] =
    ([inr (Get "/api/v1/blueprints/alice/plano1")], Returned JNull) ∧
  execute (fetchBlueprint (JStr "alice") (JStr "plano1")) [Rejected timeout] =
    ([inr (Get "/api/v1/blueprints/alice/plano1")], Thrown timeout).
Proof.
  destruct (fetchBlueprint_unwraps_envelope (number:=Z) (JStr "alice") (JStr "plano1")
              "alice" "plano1" eq_refl eq_refl) as (Hdata & Habsent & Hfail & _).
  split; [exact (Hdata (envelope blueprint) eq_refl)|].
  split; [exact (Habsent envelope_without_data eq_refl)|].
  split; [exact (Habsent (envelope JNull) eq_refl)|].
  exact (Hfail timeout).
Defined.

Lemma draw_event_missing_field_witness :
  truthy join_payload && truthy (field join_payload "author") &&
    truthy (field join_payload "name") && truthy (field join_payload "point") = false ∧
  (step two_members (OnDrawEvent "B" join_payload AckFunction)).2 =
    [Acked "B" (ack_failure "draw-event: missing author, name or point");
     Sent "B" "error" (message_obj "draw-event: missing author, name or point")].
Proof.
  split; [reflexivity|].
  by rewrite (draw_event_missing_field two_members "B" join_payload AckFunction eq_refl).
Defined.

Lemma draw_event_persist_failure_witness :
  let g1 := (run two_members [OnDrawEvent "A" draw_payload AckFunction;
                              OnJoinRoom "C" join_payload]).1 in
  names_blueprint draw_payload "alice" "plano1" ∧
  (step two_members (OnDrawEvent "A" draw_payload AckFunction)).2 =
    [Requested 2 (Put "/api/v1/blueprints/alice/plano1/points" point)] ∧
  step g1 (Settled 2 (Rejected timeout)) =
    (finished 2 g1,
     [Acked "A" (ack_failure "Failed to persist point: timeout of 5000ms exceeded");
      Sent "A" "error" (message_obj "Failed to persist point: timeout of 5000ms exceeded")]).
Proof.
  cbv zeta. split; [exact sample_names_blueprint|].
  destruct (draw_event_persist_failure two_members "A" draw_payload AckFunction
              "alice" "plano1" [OnJoinRoom "C" join_payload] timeout
              sample_names_blueprint eq_refl (proj1 (sample_others _ "C")))
    as (Hput & ack_msg & event_msg & Hstep & Hmsg & _).
  split; [exact Hput|].
  destruct (Hmsg "timeout of 5000ms exceeded" eq_refl) as [-> ->].
  exact Hstep.
Defined.

Lemma draw_event_fetch_failure_witness :
  let g2 := (run two_members [OnDrawEvent "A" draw_payload AckFunction;
                              OnJoinRoom "C" join_payload;
                              Settled 2 (Resolved (envelope JNull));
                              OnDisconnect "B"]).1 in
  others 2 [OnJoinRoom "C" join_payload] ∧
  step g2 (Settled 2 (Rejected timeout)) =
    (finished 2 g2,
     [Acked "A" (ack_failure "Failed to fetch updated blueprint: timeout of 5000ms exceeded");
      Sent "A" "warning"
        (message_obj "Failed to fetch updated blueprint: timeout of 5000ms exceeded")]).
Proof.
  cbv zeta. split; [exact (proj1 (sample_others 2 "C"))|].
  exact (proj2 (draw_event_fetch_failure two_members "A" draw_payload AckFunction
                  "alice" "plano1" [OnJoinRoom "C" join_payload] [OnDisconnect "B"]
                  (envelope JNull) timeout
                  sample_names_blueprint eq_refl
                  (proj1 (sample_others _ "C")) (proj2 (sample_others _ "B")))).
Defined.

Lemma draw_event_fetch_absent_witness :
  let g2 := (run two_members [OnDrawEvent "A" draw_payload AckFunction;
                              OnJoinRoom "C" join_payload;
                              Settled 2 (Resolved (envelope JNull));
                              OnDisconnect "B"]).1 in
  (execute (fetchBlueprint (field draw_payload "author") (field draw_payload "name"))
     [Resolved envelope_without_data]).2 = Returned JNull ∧
  step g2 (Settled 2 (Resolved envelope_without_data)) =
    (finished 2 g2,
     [Acked "A" (ack_failure "Blueprint not found after persisting point");
      Sent "A" "warning" (message_obj "Blueprint not found after persisting point")]).
Proof.
  cbv zeta. split; [reflexivity|].
  exact (draw_event_fetch_absent two_members "A" draw_payload AckFunction
           "alice" "plano1" [OnJoinRoom "C" join_payload] [OnDisconnect "B"]
           (envelope JNull) envelope_without_data
           sample_names_blueprint eq_refl
           (proj1 (sample_others _ "C")) (proj2 (sample_others _ "B")) eq_refl).
Defined.

Lemma draw_event_broadcasts_once_witness :
  let g2 := (run two_members [OnDrawEvent "A" draw_payload AckFunction;
                              OnJoinRoom "C" join_payload;
                              Settled 2 (Resolved (envelope JNull));
                              OnDisconnect "B"]).1 in
  (execute (fetchBlueprint (field draw_payload "author") (field draw_payload "name"))
     [Resolved (envelope blueprint)]).2 = Returned blueprint ∧
  ∃ to,
    step g2 (Settled 2 (Resolved (envelope blueprint))) =
      (finished 2 g2,
       [Broadcast "room:alice-plano1" "blueprint-update" blueprint to;
        Acked "A" ack_success]) ∧
    "A" ∈ to ∧ "C" ∈ to ∧ "B" ∉ to.
Proof.
  cbv zeta. split; [reflexivity|].
  destruct (draw_event_broadcasts_once two_members "A" draw_payload AckFunction
              "alice" "plano1" [OnJoinRoom "C" join_payload] [OnDisconnect "B"]
              (envelope JNull) (envelope blueprint) blueprint
              sample_names_blueprint eq_refl
              (proj1 (sample_others _ "C")) (proj2 (sample_others _ "B")) eq_refl)
    as (_ & _ & _ & to & Hstep & Hto & _); [discriminate|].
  exists to. split; [exact Hstep|].
  rewrite !Hto. repeat split; apply (bool_decide_unpack _); vm_compute; exact I.
Defined.

Lemma falsy_data_is_absent_witness :
  let g2 := (run two_members [OnDrawEvent "A" draw_payload AckFunction;
                              OnJoinRoom "C" join_payload;
                              Settled 2 (Resolved (envelope JNull));
                              OnDisconnect "B"]).1 in
  truthy (JNum 0%Z) = false ∧
  execute (fetchBlueprint (JStr "alice") (JStr "plano1")) [Resolved (envelope (JNum 0%Z))] =
    ([inr (Get "/api/v1/blueprints/alice/plano1")], Returned JNull) ∧
  step g2 (Settled 2 (Resolved (envelope (JNum 0%Z)))) =
    (finished 2 g2,
     [Acked "A" (ack_failure "Blueprint not found after persisting point");
      Sent "A" "warning" (message_obj "Blueprint not found after persisting point")]).
Proof.
  cbv zeta. split; [reflexivity|].
  exact (falsy_data_is_absent two_members "A" draw_payload AckFunction
           "alice" "plano1" [OnJoinRoom "C" join_payload] [OnDisconnect "B"]
           (envelope JNull) (envelope (JNum 0%Z)) _ (JNum 0%Z)
           sample_names_blueprint eq_refl
           (proj1 (sample_others _ "C")) (proj2 (sample_others _ "B"))
           eq_refl eq_refl eq_refl).
Defined.

Lemma join_room_fetch_failure_witness :
  let g1 := (run initial [OnJoinRoom "A" join_payload; OnJoinRoom "B" join_payload]).1 in
  names_blueprint join_payload "alice" "plano1" ∧
  (step initial (OnJoinRoom "A" join_payload)).2 =
    [Requested 0 (Get "/api/v1/blueprints/alice/plano1")] ∧
  "A" ∈ Registry.members (registry (step initial (OnJoinRoom "A" join_payload)).1)
          "room:alice-plano1" ∧
  step g1 (Settled 0 (Rejected timeout)) =
    (finished 0 g1,
     [Sent "A" "warning" (message_obj "Could not fetch blueprint state from API")]) ∧
  "A" ∈ Registry.members
          (registry (run initial [OnJoinRoom "A" join_payload;
                                  Settled 0 (Rejected timeout)]).1)
          "room:alice-plano1".
Proof.
  cbv zeta. split; [exact sample_join_names_blueprint|].
  destruct (join_room_fetch_failure initial "A" join_payload "alice" "plano1"
              [OnJoinRoom "B" join_payload] timeout
              sample_join_names_blueprint (proj1 (sample_others _ "B")))
    as (Hget & _ & Hmember & Hstep & Hremains).
  by repeat split.
Defined.

Lemma disconnect_leaves_every_room_witness :
  let inputs := [OnJoinRoom "A" join_payload; OnJoinRoom "B" join_payload;
                 OnDrawEvent "A" draw_payload AckFunction] in
  let later := [Settled 2 (Resolved (envelope JNull));
                Settled 2 (Resolved (envelope blueprint));
                OnLeaveRoom "B" join_payload] in
  let g := (run initial inputs).1 in
  let g' := (step g (OnDisconnect "B")).1 in
  "B" ∈ Registry.members (registry g) "room:alice-plano1" ∧
  Forall (λ i, ¬ joins "B" i) later ∧
  (∀ room, "B" ∉ Registry.members (registry g') room) ∧
  (∀ e, e ∈ (run g' later).2 → ¬ reaches "B" e) ∧
  (run g' later).2 =
    [Requested 2 (Get "/api/v1/blueprints/alice/plano1");
     Broadcast "room:alice-plano1" "blueprint-update" blueprint {["A"]};
     Acked "A" ack_success] ∧
  subscribed (inputs ++ [OnDisconnect "B"]) "B" "room:alice-plano1" = false.
Proof.
  cbv zeta.
  assert (Forall (λ i : @Input Z, ¬ joins "B" i)
            [Settled 2 (Resolved (envelope JNull));
             Settled 2 (Resolved (envelope blueprint));
             OnLeaveRoom "B" join_payload]) as Hlater
    by (repeat constructor; intros []).
  destruct (disconnect_leaves_every_room
              [OnJoinRoom "A" join_payload; OnJoinRoom "B" join_payload;
               OnDrawEvent "A" draw_payload AckFunction]
              _ "B" Hlater) as (Hout & Hev & _ & _ & _).
  split; [apply (bool_decide_unpack _); vm_compute; exact I|].
  split; [exact Hlater|]. split; [exact Hout|]. split; [exact Hev|].
  split; [|reflexivity].
  vm_compute. reflexivity.
Defined.

(** ** More of the scenario *)

Lemma join_room_rejects_missing_fields_witness :
  join_fields_present (JObj [("author", JStr "alice")] : value) = false ∧
  step two_members (OnJoinRoom "C" (JObj [("author", JStr "alice")])) =
    (finished 2 (accepted two_members),
     [Sent "C" "error" (message_obj "join-room: missing author or name")]).
Proof.
  split; [reflexivity|].
  exact (join_room_rejects_missing_fields two_members "C"
           (JObj [("author", JStr "alice")]) eq_refl).
Defined.

Lemma join_room_initial_state_witness :
  let g1 := (run initial [OnJoinRoom "A" join_payload; OnJoinRoom "B" join_payload]).1 in
  others 0 [OnJoinRoom (number:=Z) "B" join_payload] ∧
  step g1 (Settled 0 (Resolved (envelope blueprint))) =
    (finished 0 g1, [Sent "A" "blueprint-update" blueprint]) ∧
  step g1 (Settled 0 (Resolved envelope_without_data)) = (finished 0 g1, []).
Proof.
  cbv zeta. split; [exact (proj1 (sample_others 0 "B"))|]. split.
  - exact (join_room_initial_state initial "A" join_payload "alice" "plano1"
             [OnJoinRoom "B" join_payload] (envelope blueprint)
             sample_join_names_blueprint (proj1 (sample_others 0 "B"))).
  - exact (join_room_initial_state initial "A" join_payload "alice" "plano1"
             [OnJoinRoom "B" join_payload] envelope_without_data
             sample_join_names_blueprint (proj1 (sample_others 0 "B"))).
Defined.

Lemma unprintable_identity_is_internal_error_witness :
  roomName (field unprintable_payload "author") (field unprintable_payload "name") = None ∧
  step two_members (OnJoinRoom "C" unprintable_payload) =
    (finished 2 (accepted two_members),
     [Sent "C" "error" (message_obj "Internal error on join-room")]) ∧
  step two_members (OnDrawEvent "A" unprintable_payload AckFunction) =
    (finished 2 (accepted two_members),
     [Acked "A" (ack_failure "Internal server error");
      Sent "A" "error" (message_obj "Internal server error handling draw-event")]).
Proof.
  split; [reflexivity|].
  destruct (unprintable_identity_is_internal_error two_members "C" unprintable_payload
              AckFunction eq_refl) as [Hjoin _].
  destruct (unprintable_identity_is_internal_error two_members "A" unprintable_payload
              AckFunction eq_refl) as [_ Hdraw].
  split; [exact (Hjoin eq_refl)|exact (Hdraw eq_refl)].
Defined.

Lemma join_then_leave_restores_membership_witness :
  let g2 := (run two_members [OnJoinRoom "C" join_payload;
                              OnLeaveRoom "C" join_payload]).1 in
  names_blueprint join_payload "alice" "plano1" ∧
  ("C" ∉ Registry.members (registry g2) "room:alice-plano1") ∧
  "A" ∈ Registry.members (registry g2) "room:alice-plano1".
Proof.
  cbv zeta. split; [exact sample_join_names_blueprint|].
  destruct (join_then_leave_restores_membership two_members "C" join_payload
              "alice" "plano1" sample_join_names_blueprint) as [Hout Hsame].
  split; [exact Hout|].
  apply (Hsame "A" "room:alice-plano1"); [by left|].
  apply (bool_decide_unpack _). vm_compute. exact I.
Defined.


Lemma request_url_identifies_blueprint_witness :
  (execute (persistPoint (JStr "a/b") (JStr "c") point) []).1 =
    [inr (Put "/api/v1/blueprints/a%2Fb/c/points" point)] ∧
  (execute (persistPoint (JStr "a") (JStr "b/c") point) []).1 =
    [inr (Put "/api/v1/blueprints/a/b%2Fc/points" point)] ∧
  (execute (persistPoint (JNum 5%Z) (JStr "c") point) []).1 =
    [inr (Put "/api/v1/blueprints/5/c/points" point)] ∧
  (execute (persistPoint (JStr "5") (JStr "c") point) []).1 =
    [inr (Put "/api/v1/blueprints/5/c/points" point)] ∧
  to_string (JNum 5%Z) = to_string (JStr "5" : value).
Proof.
  split; [reflexivity|]. split; [reflexivity|].
  split; [reflexivity|]. split; [reflexivity|].
  exact (proj1 (proj1 (request_url_identifies_blueprint (number:=Z)
                         (JNum 5%Z) (JStr "c") (JStr "5") (JStr "c"))
                  point point "/api/v1/blueprints/5/c/points" eq_refl eq_refl)).
Defined.

Lemma same_room_name_shares_updates_witness :
  let g2 := (run initial [OnJoinRoom "J" hyphen_join_payload;
                          OnDrawEvent "S" hyphen_draw_payload AckFunction;
                          Settled 1 (Resolved (envelope JNull))]).1 in
  names_blueprint hyphen_join_payload "a" "b-c" ∧
  names_blueprint hyphen_draw_payload "a-b" "c" ∧
  ("a", "b-c") ≠ ("a-b", "c") ∧
  ∃ to,
    (step g2 (Settled 1 (Resolved (envelope blueprint)))).2 =
      [Broadcast "room:a-b-c" "blueprint-update" blueprint to;
       Acked "S" ack_success] ∧
    "J" ∈ to.
Proof.
  cbv zeta. split; [by repeat split|]. split; [by repeat split|]. split; [done|].
  apply (same_room_name_shares_updates initial "J" "S" hyphen_join_payload
           hyphen_draw_payload AckFunction "a-b" "c" "a" "b-c"
           (envelope JNull) (envelope blueprint) blueprint).
  - apply sound_initial.
  - by repeat split.
  - by repeat split.
  - reflexivity.
  - reflexivity.
  - reflexivity.
  - discriminate.
Defined.

Lemma membership_in_own_hands_witness :
  let inputs := [OnJoinRoom "A" join_payload; OnJoinRoom "B" join_payload] in
  let later := [OnDrawEvent "B" draw_payload AckFunction; OnDisconnect "B";
                OnLeaveRoom "C" join_payload; Settled 0 (Rejected timeout)] in
  Forall (λ i, ¬ departs "A" i) later ∧
  Forall (λ i, ¬ joins "C" i) later ∧
  "A" ∈ Registry.members (registry (run initial (inputs ++ later)).1) "room:alice-plano1" ∧
  "C" ∉ Registry.members (registry (run initial (inputs ++ later)).1) "room:alice-plano1".
Proof.
  cbv zeta.
  assert (Forall (λ i : @Input Z, ¬ departs "A" i)
            [OnDrawEvent "B" draw_payload AckFunction; OnDisconnect "B";
             OnLeaveRoom "C" join_payload; Settled 0 (Rejected timeout)]) as Hstay
    by (repeat constructor; by intros ?).
  assert (Forall (λ i : @Input Z, ¬ joins "C" i)
            [OnDrawEvent "B" draw_payload AckFunction; OnDisconnect "B";
             OnLeaveRoom "C" join_payload; Settled 0 (Rejected timeout)]) as Hout
    by (repeat constructor; by intros ?).
  split; [exact Hstay|]. split; [exact Hout|].
  destruct (membership_in_own_hands
              [OnJoinRoom "A" join_payload; OnJoinRoom "B" join_payload]
              [OnDrawEvent "B" draw_payload AckFunction; OnDisconnect "B";
               OnLeaveRoom "C" join_payload; Settled 0 (Rejected timeout)]
              "A" "room:alice-plano1") as [Hin _].
  destruct (membership_in_own_hands
              [OnJoinRoom "A" join_payload; OnJoinRoom "B" join_payload]
              [OnDrawEvent "B" draw_payload AckFunction; OnDisconnect "B";
               OnLeaveRoom "C" join_payload; Settled 0 (Rejected timeout)]
              "C" "room:alice-plano1") as [_ Hnot].
  split.
  - apply (Hin Hstay). apply (bool_decide_unpack _). vm_compute. exact I.
  - apply (Hnot Hout). apply (bool_decide_unpack _). vm_compute. exact I.
Defined.

Lemma persist_failure_message_witness :
  let g1 := (run two_members [OnDrawEvent "A" draw_payload AckFunction;
                              OnJoinRoom "C" join_payload]).1 in
  let not_found :=
    mkError "Request failed with status code 404"
      (Some (mkResponse (JObj [("status", JNum 404%Z);
                               ("message", JStr "Blueprint not found");
                               ("data", JNull)]))) in
  others 2 [OnJoinRoom (number:=Z) "C" join_payload] ∧
  step g1 (Settled 2 (Rejected not_found)) =
    (finished 2 g1,
     [Acked "A" (ack_failure "Failed to persist point: Blueprint not found");
      Sent "A" "error" (message_obj "Failed to persist point: Blueprint not found")]).
Proof.
  cbv zeta. split; [exact (proj1 (sample_others 2 "C"))|].
  refine (proj1 (persist_failure_message two_members "A" draw_payload AckFunction
                   "alice" "plano1" [OnJoinRoom "C" join_payload]
                   (mkError "Request failed with status code 404"
                      (Some (mkResponse (JObj [("status", JNum 404%Z);
                                               ("message", JStr "Blueprint not found");
                                               ("data", JNull)]))))
                   sample_names_blueprint eq_refl (proj1 (sample_others _ "C")))
            _ "Blueprint not found" eq_refl eq_refl _).
  discriminate.
Defined.

End Scenario.
